(** * gophpfpm: the FastCGI transport (fcgi_client.go) and its adapter

    A shallow embedding of the record codec, the connection, the pool
    acquisition and the client of [fcgi_client.go], with the part of
    [fpm_client.go] that builds and shares the parameter map.

    Integers are [Z] with Go's wrap-around written out, bytes on the wire
    are [Byte.byte], Go strings are [string], Go maps live in a store of
    [gmap]s addressed by location (a Go map value is a reference), and the
    methods of [*FCgiConnection] run in a state-and-error monad. *)

From Stdlib Require Import ZArith Lia List String Ascii DecimalString.
From Stdlib.Strings Require Import Byte.
From stdpp Require Import gmap strings list fin_maps.
Import ListNotations.
Open Scope Z_scope.

(** ** Go's base types and library functions used by the client *)

Module Go.

Definition byte_of_Z (z : Z) : byte :=
  match Byte.of_N (Z.to_N (z mod 256)) with
  | Some b => b
  | None => x00
  end.

Definition Z_of_byte (b : byte) : Z := Z.of_N (Byte.to_N b).

(** Conversions to the unsigned types: reduction modulo the width. *)
Definition uint8 (z : Z) : Z := z mod 256.
Definition uint16 (z : Z) : Z := z mod 65536.
Definition uint32 (z : Z) : Z := z mod 4294967296.

(** [len] of a slice and of a string, as a Go [int]. *)
Definition len {A : Type} (l : list A) : Z := Z.of_nat (length l).
Definition strlen (s : string) : Z := Z.of_nat (String.length s).

(** [[]byte(s)]. *)
Definition bytes_of_string (s : string) : list byte := list_byte_of_string s.

(** encoding/binary, big endian. *)
Definition PutUint16 (v : Z) : list byte :=
  [byte_of_Z (Z.shiftr v 8); byte_of_Z v].

Definition PutUint32 (v : Z) : list byte :=
  [byte_of_Z (Z.shiftr v 24); byte_of_Z (Z.shiftr v 16);
   byte_of_Z (Z.shiftr v 8); byte_of_Z v].

Definition Uint16 (hi lo : byte) : Z :=
  Z.lor (Z.shiftl (Z_of_byte hi) 8) (Z_of_byte lo).

(** [b[lo:hi]] for [0 <= lo <= hi <= len b]. *)
Definition slice {A : Type} (b : list A) (lo hi : nat) : list A :=
  take (hi - lo) (drop lo b).

(** strconv.Itoa. *)
Definition Itoa (n : Z) : string := NilZero.string_of_int (Z.to_int n).

(** strings.Split(s, " "): the fields between single spaces; never empty. *)
Fixpoint Split_space (s : string) : list string :=
  match s with
  | EmptyString => [EmptyString]
  | String c s' =>
      if Ascii.eqb c " "%char then EmptyString :: Split_space s'
      else match Split_space s' with
           | f :: fs => String c f :: fs
           | [] => [String c EmptyString]
           end
  end.

(** The errors of the standard library that reach the client, and
    [fmt.Errorf(msg + ": %w", cause)]; [Errorf_nil] is the same call with a
    nil cause. *)
Inductive error : Type :=
| io_EOF
| io_ErrUnexpectedEOF
| net_ErrClosed
| net_ErrWrite
| net_ErrDial
| strconv_ErrSyntax (s : string)
| strconv_ErrRange (s : string)
| http_Error (msg : string)
| Errorf (msg : string) (cause : error)
| Errorf_nil (msg : string).

(** errors.Unwrap, iterated: the chain of causes under an error. *)
Fixpoint chain (e : error) : list error :=
  e :: match e with
       | Errorf _ c => chain c
       | _ => []
       end.

(** strconv.Atoi on a 64-bit platform: an optional sign, at least one
    decimal digit, nothing else, and a value that fits [int]. *)
Definition digit (c : ascii) : option Z :=
  let n := Z.of_N (N_of_ascii c) in
  if (48 <=? n) && (n <=? 57) then Some (n - 48) else None.

Fixpoint digits (acc : Z) (s : string) : option Z :=
  match s with
  | EmptyString => Some acc
  | String c s' =>
      match digit c with
      | Some d => digits (acc * 10 + d) s'
      | None => None
      end
  end.

Definition Atoi (s : string) : error + Z :=
  let unsigned (neg : bool) (t : string) :=
    match t with
    | EmptyString => inl (strconv_ErrSyntax s)
    | _ =>
        match digits 0 t with
        | None => inl (strconv_ErrSyntax s)
        | Some n =>
            let v := if neg then - n else n in
            if (- 9223372036854775808 <=? v) && (v <=? 9223372036854775807)
            then inr v else inl (strconv_ErrRange s)
        end
    end in
  match s with
  | String "-"%char t => unsigned true t
  | String "+"%char t => unsigned false t
  | _ => unsigned false s
  end.

End Go.
Import Go.

(** ** Constants and records of fcgi_client.go *)

Definition FCGI_VERSION : Z := 1.
Definition FCGI_FLAG_KEEP_ALIVE : Z := 1.
Definition FCGI_RESPONDER : Z := 1.
Definition FCGI_BEGIN_REQUEST : Z := 1.
Definition FCGI_END_REQUEST : Z := 3.
Definition FCGI_PARAMS : Z := 4.
Definition FCGI_STDIN : Z := 5.
Definition FCGI_STDOUT : Z := 6.
Definition FCGI_STDERR : Z := 7.

Record FCgiRecord : Type := mkFCgiRecord {
  Version : Z;
  Type_ : Z;
  RequestId : Z;
  ContentLength : Z;
  PaddingLength : Z;
  Reserved : Z
}.

(** A Go map is a reference: [Params] is the location of the map in the
    store, so that copies of the request share it. *)
Definition loc : Type := positive.

Record FCgiRequest : Type := mkFCgiRequest {
  Params : loc;
  Body : list byte;
  requestId : Z
}.

(** binary.Write and binary.Read of the header struct, big endian. *)
Definition encode_header (h : FCgiRecord) : list byte :=
  [byte_of_Z (Version h); byte_of_Z (Type_ h)]
    ++ PutUint16 (RequestId h)
    ++ PutUint16 (ContentLength h)
    ++ [byte_of_Z (PaddingLength h); byte_of_Z (Reserved h)].

Definition decode_header (b : list byte) : FCgiRecord :=
  match b with
  | [v; t; r1; r0; c1; c0; p; z] =>
      mkFCgiRecord (Z_of_byte v) (Z_of_byte t) (Uint16 r1 r0) (Uint16 c1 c0)
                   (Z_of_byte p) (Z_of_byte z)
  | _ => mkFCgiRecord 0 0 0 0 0 0
  end.

(** ** The socket, the connection and the state of a call *)

(** A stream socket: the bytes the peer delivers (end of list: the peer
    has closed, a read meets EOF), the bytes written so far, and how many
    further Write calls succeed before the socket breaks ([None]: it never
    breaks). *)
Record NetConn : Type := mkNetConn {
  inbound : list byte;
  outbound : list byte;
  writes_left : option nat;
  closed : bool
}.

Record FCgiConnection : Type := mkFCgiConnection {
  Conn : NetConn;
  socketPath : string;
  id : Z
}.

(** What a method of the connection sees: the connection itself, the
    results of the net.Dial calls to come, and the store of Go maps. *)
Record St : Type := mkSt {
  fc : FCgiConnection;
  dials : list (option NetConn);
  maps : gmap loc (gmap string string)
}.

Definition set_Conn (n : NetConn) (st : St) : St :=
  mkSt (mkFCgiConnection n (socketPath (fc st)) (id (fc st))) (dials st) (maps st).

Definition set_maps (m : gmap loc (gmap string string)) (st : St) : St :=
  mkSt (fc st) (dials st) m.

(** Results: a value, a Go error, a run-time panic; [OutOfFuel] is the
    bound of the model's recursion and no outcome of the program. *)
Inductive res (A : Type) : Type :=
| Ok (a : A)
| Err (e : error)
| Panic (msg : string)
| OutOfFuel.
Arguments Ok {A} a.
Arguments Err {A} e.
Arguments Panic {A} msg.
Arguments OutOfFuel {A}.

Definition M (A : Type) : Type := St -> res A * St.

Definition ret {A : Type} (a : A) : M A := fun st => (Ok a, st).
Definition throw {A : Type} (e : error) : M A := fun st => (Err e, st).
Definition panic {A : Type} (msg : string) : M A := fun st => (Panic msg, st).

Definition bind {A B : Type} (m : M A) (k : A -> M B) : M B :=
  fun st =>
    match m st with
    | (Ok a, st') => k a st'
    | (Err e, st') => (Err e, st')
    | (Panic msg, st') => (Panic msg, st')
    | (OutOfFuel, st') => (OutOfFuel, st')
    end.

#[export] Instance M_ret : MRet M := @ret.
#[export] Instance M_bind : MBind M := fun A B k m => bind m k.

(** [if err != nil { return fmt.Errorf(msg + ": %w", err) }]. *)
Definition wrap {A : Type} (msg : string) (m : M A) : M A :=
  fun st =>
    match m st with
    | (Err e, st') => (Err (Errorf msg e), st')
    | r => r
    end.

(** net.Conn.Write: one call, all of [data] or an error. *)
Definition conn_Write (data : list byte) : M unit :=
  fun st =>
    let c := Conn (fc st) in
    if closed c then (Err net_ErrClosed, st)
    else match writes_left c with
         | Some O => (Err net_ErrWrite, st)
         | Some (S n) =>
             (Ok tt, set_Conn (mkNetConn (inbound c) (outbound c ++ data) (Some n) false) st)
         | None =>
             (Ok tt, set_Conn (mkNetConn (inbound c) (outbound c ++ data) None false) st)
         end.

(** binary.Read of [n] bytes from the connection, that is io.ReadFull:
    nothing to read succeeds at once, no byte at all is EOF, too few bytes
    is ErrUnexpectedEOF. *)
Definition binary_Read (n : nat) : M (list byte) :=
  fun st =>
    let c := Conn (fc st) in
    match n with
    | O => (Ok [], st)
    | _ =>
        if closed c then (Err net_ErrClosed, st)
        else match inbound c with
             | [] => (Err io_EOF, st)
             | _ =>
                 if (length (inbound c) <? n)%nat
                 then (Err io_ErrUnexpectedEOF,
                       set_Conn (mkNetConn [] (outbound c) (writes_left c) false) st)
                 else (Ok (take n (inbound c)),
                       set_Conn (mkNetConn (drop n (inbound c)) (outbound c)
                                           (writes_left c) false) st)
             end
    end.

(** ** The record codec: writeRecord *)

Definition writeRecord (requestId : Z) (recordType : Z) (contentData : list byte)
  : M unit :=
  let contentLength := len contentData in
  let header :=
    mkFCgiRecord FCGI_VERSION recordType requestId
                 (uint16 contentLength)
                 (uint8 (Z.land (- contentLength) 7))
                 0 in
  let buf := encode_header header in
  wrap "could not write header to connection" (conn_Write buf) ;;
  wrap "could not write data to connection" (conn_Write contentData) ;;
  let pad := replicate (Z.to_nat (PaddingLength header)) x00 in
  wrap "could not write padding to connection" (conn_Write pad).

(** The bytes one successful writeRecord leaves on the wire. *)
Definition padding_of (contentData : list byte) : Z :=
  uint8 (Z.land (- len contentData) 7).

Definition record_header (requestId recordType : Z) (contentData : list byte)
  : FCgiRecord :=
  mkFCgiRecord FCGI_VERSION recordType requestId
               (uint16 (len contentData)) (padding_of contentData) 0.

Definition record_bytes (requestId recordType : Z) (contentData : list byte)
  : list byte :=
  encode_header (record_header requestId recordType contentData)
    ++ contentData
    ++ replicate (Z.to_nat (padding_of contentData)) x00.

(** ** The connection: sendHeader, sendParams, sendBody *)

Definition sendHeader (r : FCgiRequest) : M unit :=
  let flags := uint8 FCGI_FLAG_KEEP_ALIVE in
  let role := FCGI_RESPONDER in
  let data := [byte_of_Z (Z.shiftr role 8); byte_of_Z role; byte_of_Z flags;
               x00; x00; x00; x00; x00] in
  writeRecord (requestId r) FCGI_BEGIN_REQUEST data.

(** [m[k] = v] on the map at location [p]; a nil map panics. *)
Definition map_assign (p : loc) (k v : string) : M unit :=
  fun st =>
    match maps st !! p with
    | Some m => (Ok tt, set_maps (<[p := <[k := v]> m]> (maps st)) st)
    | None => (Panic "assignment to entry in nil map", st)
    end.

Fixpoint for_each {A : Type} (f : A -> M unit) (l : list A) : M unit :=
  match l with
  | [] => ret tt
  | x :: l' => f x ;; for_each f l'
  end.

(** The payload of the PARAMS record of one pair. *)
Definition param_payload (name value : string) : list byte :=
  take 4 (PutUint32 (Z.lor (uint32 (strlen name)) (Z.shiftl 1 31)))
    ++ take 4 (PutUint32 (Z.lor (uint32 (strlen value)) (Z.shiftl 1 31)))
    ++ bytes_of_string name
    ++ bytes_of_string value.

Definition chunkSize : Z := 65535.

(** The loop of sendBody over [i], bounded by [fuel] iterations. *)
Fixpoint sendBody_loop (fuel : nat) (r : FCgiRequest) (i : Z) : M unit :=
  match fuel with
  | O => fun st => (OutOfFuel, st)
  | S fuel' =>
      if i <? len (Body r) then
        let end_ := i + chunkSize in
        let end_ := if end_ >? len (Body r) then len (Body r) else end_ in
        writeRecord (requestId r) FCGI_STDIN
                    (slice (Body r) (Z.to_nat i) (Z.to_nat end_)) ;;
        sendBody_loop fuel' r (i + chunkSize)
      else ret tt
  end.

Definition sendBody (r : FCgiRequest) : M unit :=
  (if len (Body r) >? 0 then sendBody_loop (S (length (Body r))) r 0 else ret tt) ;;
  writeRecord (requestId r) FCGI_STDIN [].

(** ** The response of net/http *)

Record HttpResponse : Type := mkHttpResponse {
  Status : string;
  StatusCode : Z;
  Header : gmap string (list string);
  RespBody : list byte
}.

(** http.Header.Get on a key that is already in canonical form. *)
Definition Header_Get (h : gmap string (list string)) (key : string) : string :=
  match h !! key with
  | Some (v :: _) => v
  | _ => EmptyString
  end.

Definition CRLF : string := String "013"%char (String "010"%char EmptyString).

(** The literal ["HTTP/1.0 200 OK\r\n"]. *)
Definition preamble : list byte := bytes_of_string ("HTTP/1.0 200 OK" ++ CRLF)%string.

(** Lines 279-295 of readResponse: the status override. *)
Definition parse_status (httpResponse : HttpResponse) : M HttpResponse :=
  let status := Header_Get (Header httpResponse) "Status" in
  if negb (String.eqb status EmptyString) then
    let httpResponse :=
      mkHttpResponse status (StatusCode httpResponse) (Header httpResponse)
                     (RespBody httpResponse) in
    let s := Split_space status in
    if (length s <? 2)%nat then throw (Errorf_nil "could not parse status code")
    else
      match Atoi (List.hd EmptyString s) with
      | inl err => throw (Errorf "could not parse status code" err)
      | inr code =>
          ret (mkHttpResponse (Status httpResponse) code (Header httpResponse)
                              (RespBody httpResponse))
      end
  else ret httpResponse.

(** ** The pool *)

(** What can happen while findConnection waits on an empty pool: the
    one-second timer fires, another request puts a connection back, or the
    context of the inbound request is cancelled. *)
Inductive pool_event : Type :=
| TimerFired
| Released (c : FCgiConnection)
| ContextCancelled.

Record FCgiClient : Type := mkFCgiClient {
  Pool : list FCgiConnection;
  busy_logged : nat
}.

(** findConnection: the select has a case for the timer and a case for the
    pool, and none for a context. [None]: still waiting when the events
    end. *)
Fixpoint findConnection (evs : list pool_event) (client : FCgiClient)
  : option FCgiConnection * FCgiClient * list pool_event :=
  match Pool client with
  | conn :: rest => (Some conn, mkFCgiClient rest (busy_logged client), evs)
  | [] =>
      match evs with
      | [] => (None, client, [])
      | TimerFired :: evs' =>
          findConnection evs' (mkFCgiClient [] (S (busy_logged client)))
      | Released conn :: evs' => (Some conn, client, evs')
      | ContextCancelled :: evs' => findConnection evs' client
      end
  end.

Definition reconnect : M unit :=
  fun st =>
    let c := Conn (fc st) in
    let st := set_Conn (mkNetConn (inbound c) (outbound c) (writes_left c) true) st in
    match dials st with
    | Some conn :: ds =>
        (Ok tt, mkSt (mkFCgiConnection conn (socketPath (fc st)) (id (fc st)))
                     ds (maps st))
    | None :: ds =>
        (Err (Errorf "could not reconnect" net_ErrDial), mkSt (fc st) ds (maps st))
    | [] => (Err (Errorf "could not reconnect" net_ErrDial), st)
    end.

Definition NewRequest (params : loc) (body : list byte) (token : byte * byte)
  : FCgiRequest :=
  mkFCgiRequest params body (Uint16 (fst token) (snd token)).

(** ** The client, over the two things the source leaves to Go

    [range_order] is the order in which a [range] visits a map (Go leaves
    it unspecified); [http_ReadResponse] is net/http's ReadResponse on the
    bytes of a reader. *)

Section Client.

Variable range_order : forall V : Type, gmap string V -> list (string * V).
Variable http_ReadResponse : list byte -> error + HttpResponse.

(** [for name, value := range m] on the map at [p]; a nil map has no entry. *)
Definition map_range (p : loc) : M (list (string * string)) :=
  fun st =>
    match maps st !! p with
    | Some m => (Ok (range_order _ m), st)
    | None => (Ok [], st)
    end.

Definition sendParams (r : FCgiRequest) : M unit :=
  (if len (Body r) >? 0
   then map_assign (Params r) "CONTENT_LENGTH" (Itoa (len (Body r)))
   else ret tt) ;;
  entries ← map_range (Params r) ;
  for_each (fun '(name, value) =>
              writeRecord (requestId r) FCGI_PARAMS (param_payload name value))
           entries ;;
  writeRecord (requestId r) FCGI_PARAMS [].

(** One iteration of the loop of readResponse. The flag is [true] when the
    iteration ends the loop ([break]); a record of another request id goes
    back to the head of the loop ([continue]) right after its header. *)
Definition read_iteration (req : FCgiRequest) (stdout : list byte)
  : M (bool * list byte) :=
  hb ← wrap "could not read record header" (binary_Read 8) ;
  let respHeader := decode_header hb in
  if negb (requestId req =? RequestId respHeader) then ret (false, stdout)
  else
    b ← wrap "could not read record body"
          (binary_Read (Z.to_nat (uint16 (ContentLength respHeader
                                          + PaddingLength respHeader)))) ;
    stdout' ← (if Type_ respHeader =? FCGI_STDOUT then
                 if ContentLength respHeader <=? len b
                 then ret (stdout ++ take (Z.to_nat (ContentLength respHeader)) b)
                 else panic "slice bounds out of range"
               else ret stdout) ;
    ret (Type_ respHeader =? FCGI_END_REQUEST, stdout').

(** The loop of readResponse, bounded by [fuel] iterations. *)
Fixpoint readRecords (fuel : nat) (req : FCgiRequest) (stdout : list byte)
  : M (list byte) :=
  match fuel with
  | O => fun st => (OutOfFuel, st)
  | S fuel' =>
      bind (read_iteration req stdout)
           (fun step : bool * list byte =>
              if fst step then ret (snd step) else readRecords fuel' req (snd step))
  end.

Definition readResponse (req : FCgiRequest) : M HttpResponse :=
  fun st =>
    (stdout ← readRecords (S (length (inbound (Conn (fc st))))) req [] ;
     let stdout := preamble ++ stdout in
     match http_ReadResponse stdout with
     | inl err => throw (Errorf "could not read response as http response" err)
     | inr httpResponse => parse_status httpResponse
     end) st.

Definition doRequest (r : FCgiRequest) : M HttpResponse :=
  wrap "could not send header" (sendHeader r) ;;
  wrap "could not send params" (sendParams r) ;;
  wrap "could not send body" (sendBody r) ;;
  wrap "could not read response" (readResponse r).

(** SendRequest between the acquisition and the deferred release. *)
Definition SendRequest_held (r : FCgiRequest) : M HttpResponse :=
  fun st =>
    match doRequest r st with
    | (Err _, st1) =>
        match reconnect st1 with
        | (Err err, st2) => (Err (Errorf "could not reconnect" err), st2)
        | (Ok _, st2) =>
            match doRequest r st2 with
            | (Err err, st3) => (Err (Errorf "could not send the request" err), st3)
            | other => other
            end
        | (Panic msg, st2) => (Panic msg, st2)
        | (OutOfFuel, st2) => (OutOfFuel, st2)
        end
    | other => other
    end.

(** The world of a call to SendRequest: the client with its pool, the
    dials to come, the store of maps. *)
Record World : Type := mkWorld {
  client : FCgiClient;
  w_dials : list (option NetConn);
  w_maps : gmap loc (gmap string string)
}.

(** SendRequest. [None]: the call still waits for a connection. The
    deferred send puts the connection back on every way out. *)
Definition SendRequest (evs : list pool_event) (r : FCgiRequest) (w : World)
  : option (res HttpResponse) * World :=
  match findConnection evs (client w) with
  | (None, cl, _) => (None, mkWorld cl (w_dials w) (w_maps w))
  | (Some conn, cl, _) =>
      let '(result, st) := SendRequest_held r (mkSt conn (w_dials w) (w_maps w)) in
      (Some result,
       mkWorld (mkFCgiClient (Pool cl ++ [fc st]) (busy_logged cl))
               (dials st) (maps st))
  end.

End Client.

(** ** The adapter: fpm_client.go *)

Module Adapter.

Definition to_upper (c : ascii) : ascii :=
  let n := N_of_ascii c in
  if ((97 <=? n) && (n <=? 122))%N then ascii_of_N (n - 32) else c.

Definition to_lower (c : ascii) : ascii :=
  let n := N_of_ascii c in
  if ((65 <=? n) && (n <=? 90))%N then ascii_of_N (n + 32) else c.

(** strings.ToUpper and strings.ToLower, on ASCII names. *)
Fixpoint ToUpper (s : string) : string :=
  match s with
  | EmptyString => EmptyString
  | String c s' => String (to_upper c) (ToUpper s')
  end.

Fixpoint ToLower (s : string) : string :=
  match s with
  | EmptyString => EmptyString
  | String c s' => String (to_lower c) (ToLower s')
  end.

Definition protectedHeadersInbound : gmap string bool :=
  <["content-type" := true]> (<["content-length" := true]> ∅).

Record Config : Type := mkConfig {
  Port : Z;
  IndexFile : string
}.

(** The fields of the inbound *http.Request that Call reads. *)
Record HttpRequest : Type := mkHttpRequest {
  Host : string;
  Method : string;
  RequestURI : string;
  QueryEncoded : string;
  ReqHeader : gmap string (list string);
  ReqBody : error + list byte
}.

Record ResponseData : Type := mkResponseData {
  RStatus : Z;
  Headers : gmap string (list string);
  RBody : list byte;
  Route : string
}.

Section Call.

Variable range_order : forall V : Type, gmap string V -> list (string * V).
Variable http_ReadResponse : list byte -> error + HttpResponse.
Variable config : Config.

(** Lines 42-62 of Call: the parameter map. *)
Definition build_params (request : HttpRequest) : gmap string string :=
  let params : gmap string string :=
    <["CONTENT_TYPE" := Header_Get (ReqHeader request) "Content-Type"]>
    (<["REQUEST_METHOD" := Method request]>
    (<["QUERY_STRING" := QueryEncoded request]>
    (<["REQUEST_URI" := RequestURI request]>
    (<["SERVER_PORT" := Itoa (Port config)]>
    (<["SERVER_NAME" := Host request]>
    (<["SERVER_SOFTWARE" := "gophpfpm/1.0.0"]>
    (<["SCRIPT_FILENAME" := IndexFile config]> ∅))))))) in
  fold_left
    (fun params '(name, headers) =>
       fold_left
         (fun params header =>
            let h := ToLower name in
            match protectedHeadersInbound !! h with
            | Some _ => params
            | None => <[("HTTP_" ++ ToUpper name)%string := header]> params
            end)
         headers params)
    (range_order _ (ReqHeader request)) params.

(** Call, without the metrics. The map is allocated at a fresh location of
    the store and handed to NewRequest as it is. *)
Definition Call (evs : list pool_event) (token : byte * byte)
    (request : HttpRequest) (w : World)
  : option (res ResponseData) * World :=
  match ReqBody request with
  | inl err => (Some (Err (Errorf "could not read request body" err)), w)
  | inr requestBody =>
      let params : loc := fresh (dom (w_maps w)) in
      let w := mkWorld (client w) (w_dials w)
                       (<[params := build_params request]> (w_maps w)) in
      let fpmReq := NewRequest params [] token in
      let fpmReq :=
        if len requestBody >? 0
        then mkFCgiRequest (Params fpmReq) requestBody (requestId fpmReq)
        else fpmReq in
      match SendRequest range_order http_ReadResponse evs fpmReq w with
      | (None, w') => (None, w')
      | (Some (Ok fpmResp), w') =>
          let route := Header_Get (Header fpmResp) "X-App-Route" in
          (Some (Ok (mkResponseData (StatusCode fpmResp) (Header fpmResp)
                                    (RespBody fpmResp) route)), w')
      | (Some (Err err), w') => (Some (Err (Errorf "could not call FPM" err)), w')
      | (Some (Panic msg), w') => (Some (Panic msg), w')
      | (Some OutOfFuel, w') => (Some OutOfFuel, w')
      end
  end.

End Call.

End Adapter.

(** ** A model of net/http.ReadResponse for plain responses

    The status line as ReadResponse parses it, then the header lines of
    textproto.ReadMIMEHeader up to the blank line with their keys in
    canonical form, then the rest as the body. Folded (continuation)
    header lines are refused and the framing headers (Content-Length,
    Transfer-Encoding) are not interpreted. The client above does not
    depend on it: it instantiates [http_ReadResponse] where a concrete
    parser is needed. *)

Module HttpModel.

Fixpoint split_lf (bs : list byte) : list byte * option (list byte) :=
  match bs with
  | [] => ([], None)
  | b :: rest =>
      if Byte.eqb b x0a then ([], Some rest)
      else let '(l, r) := split_lf rest in (b :: l, r)
  end.

Fixpoint strip_cr (l : list byte) : list byte :=
  match l with
  | [] => []
  | [b] => if Byte.eqb b x0d then [] else [b]
  | b :: l' => b :: strip_cr l'
  end.

(** textproto.Reader.ReadLine: [None] at the end of the input. *)
Definition read_line (bs : list byte) : option (string * list byte) :=
  match bs with
  | [] => None
  | _ =>
      let '(l, r) := split_lf bs in
      Some (string_of_list_byte (strip_cr l), default [] r)
  end.

(** strings.Cut at the first [sep]. *)
Fixpoint cut (sep : ascii) (s : string) : string * option string :=
  match s with
  | EmptyString => (EmptyString, None)
  | String c s' =>
      if Ascii.eqb c sep then (EmptyString, Some s')
      else let '(a, b) := cut sep s' in (String c a, b)
  end.

Definition is_blank (c : ascii) : bool :=
  Ascii.eqb c " "%char || Ascii.eqb c "009"%char.

Fixpoint trim_left (blank : ascii -> bool) (s : string) : string :=
  match s with
  | String c s' => if blank c then trim_left blank s' else s
  | EmptyString => EmptyString
  end.

Fixpoint trim_right (blank : ascii -> bool) (s : string) : string :=
  match s with
  | EmptyString => EmptyString
  | String c s' =>
      match trim_right blank s' with
      | EmptyString => if blank c then EmptyString else String c EmptyString
      | t => String c t
      end
  end.

Definition is_token_char (c : ascii) : bool :=
  let n := N_of_ascii c in
  ((48 <=? n) && (n <=? 57) || (65 <=? n) && (n <=? 90) || (97 <=? n) && (n <=? 122)
   || existsb (N.eqb n) [33; 35; 36; 37; 38; 39; 42; 43; 45; 46; 94; 95; 96; 124; 126])%N.

Fixpoint all_chars (p : ascii -> bool) (s : string) : bool :=
  match s with
  | EmptyString => true
  | String c s' => p c && all_chars p s'
  end.

(** textproto.CanonicalMIMEHeaderKey on a key made of token characters. *)
Fixpoint canonical (upper : bool) (s : string) : string :=
  match s with
  | EmptyString => EmptyString
  | String c s' =>
      let c' := if upper then Adapter.to_upper c else Adapter.to_lower c in
      String c' (canonical (Ascii.eqb c' "-"%char) s')
  end.

Definition parse_header_line (l : string) : option (string * string) :=
  match cut ":"%char l with
  | (k, Some v) =>
      if negb (String.eqb k EmptyString) && all_chars is_token_char k
      then Some (canonical true k, trim_right is_blank (trim_left is_blank v))
      else None
  | (_, None) => None
  end.

Fixpoint read_headers (fuel : nat) (bs : list byte) (h : gmap string (list string))
  : error + (gmap string (list string) * list byte) :=
  match fuel with
  | O => inl io_ErrUnexpectedEOF
  | S fuel' =>
      match read_line bs with
      | None => inl io_ErrUnexpectedEOF
      | Some (EmptyString, rest) => inr (h, rest)
      | Some (l, rest) =>
          match parse_header_line l with
          | None => inl (http_Error "malformed MIME header line")
          | Some (k, v) =>
              read_headers fuel' rest (<[k := default [] (h !! k) ++ [v]]> h)
          end
      end
  end.

Definition is_digit (c : ascii) : bool :=
  let n := N_of_ascii c in ((48 <=? n) && (n <=? 57))%N.

(** http.ParseHTTPVersion accepts ["HTTP/x.y"] with one digit each. *)
Definition valid_proto (p : string) : bool :=
  match p with
  | String "H" (String "T" (String "T" (String "P" (String "/"
      (String x (String "." (String y EmptyString))))))) => is_digit x && is_digit y
  | _ => false
  end.

Definition parse_status_line (line : string) : error + (string * Z) :=
  match cut " "%char line with
  | (_, None) => inl (http_Error "malformed HTTP response")
  | (proto, Some status) =>
      let status := trim_left (fun c => Ascii.eqb c " "%char) status in
      let statusCode := fst (cut " "%char status) in
      if negb (String.length statusCode =? 3)%nat
      then inl (http_Error "malformed HTTP status code")
      else match Atoi statusCode with
           | inl _ => inl (http_Error "malformed HTTP status code")
           | inr code =>
               if code <? 0 then inl (http_Error "malformed HTTP status code")
               else if valid_proto proto then inr (status, code)
                    else inl (http_Error "malformed HTTP version")
           end
  end.

Definition ReadResponse (bs : list byte) : error + HttpResponse :=
  match read_line bs with
  | None => inl io_ErrUnexpectedEOF
  | Some (line, rest) =>
      match parse_status_line line with
      | inl err => inl err
      | inr (status, code) =>
          match read_headers (S (length rest)) rest ∅ with
          | inl err => inl err
          | inr (h, body) => inr (mkHttpResponse status code h body)
          end
      end
  end.

End HttpModel.

(** The order of [map_to_list], one of the orders a [range] may take. *)
Definition listed_order (V : Type) (m : gmap string V) : list (string * V) :=
  map_to_list m.

(** ** Vocabulary of the statements *)

(** The socket is open and its next [k] Write calls succeed. *)
Definition can_write (k : nat) (st : St) : Prop :=
  closed (Conn (fc st)) = false /\
  match writes_left (Conn (fc st)) with
  | None => True
  | Some n => (k <= n)%nat
  end.

(** The state after [k] successful Write calls that carried [bs] in all. *)
Definition wrote (k : nat) (bs : list byte) (st : St) : St :=
  let c := Conn (fc st) in
  set_Conn (mkNetConn (inbound c) (outbound c ++ bs)
                      (option_map (fun n => (n - k)%nat) (writes_left c))
                      (closed c)) st.

(** The state after the first [n] inbound bytes have been read. *)
Definition consumed (n : nat) (st : St) : St :=
  let c := Conn (fc st) in
  set_Conn (mkNetConn (drop n (inbound c)) (outbound c) (writes_left c) (closed c)) st.

(** The payloads sendBody hands to writeRecord inside its loop, from index
    [i] on. *)
Fixpoint sendBody_chunks (fuel : nat) (body : list byte) (i : Z) : list (list byte) :=
  match fuel with
  | O => []
  | S fuel' =>
      if i <? len body then
        let end_ := i + chunkSize in
        let end_ := if end_ >? len body then len body else end_ in
        slice body (Z.to_nat i) (Z.to_nat end_)
          :: sendBody_chunks fuel' body (i + chunkSize)
      else []
  end.

Definition stdin_chunks (body : list byte) : list (list byte) :=
  sendBody_chunks (S (length body)) body 0.

Definition is_Ok {A : Type} (r : res A) : Prop :=
  match r with Ok _ => True | _ => False end.


(** What a method that only reads and writes the socket leaves alone: the
    dials to come, the store of maps, the path and the slot of the
    connection. *)
Definition same_but_socket (st st' : St) : Prop :=
  dials st' = dials st /\ maps st' = maps st /\
  socketPath (fc st') = socketPath (fc st) /\ id (fc st') = id (fc st).

Definition socket_only {A : Type} (m : M A) : Prop :=
  forall st, same_but_socket st (snd (m st)).

(** What the calls on a connection leave alone even when they touch the
    store: the dials to come, the path and the slot of the connection. *)
Definition keeps_slot {A : Type} (m : M A) : Prop :=
  forall st,
    dials (snd (m st)) = dials st
    /\ socketPath (fc (snd (m st))) = socketPath (fc st)
    /\ id (fc (snd (m st))) = id (fc st).

(** The text of a status before its first space, and whether it has one. *)
Fixpoint first_field (s : string) : string :=
  match s with
  | EmptyString => EmptyString
  | String c s' => if Ascii.eqb c " "%char then EmptyString else String c (first_field s')
  end.

Fixpoint has_space (s : string) : bool :=
  match s with
  | EmptyString => false
  | String c s' => Ascii.eqb c " "%char || has_space s'
  end.

(** The status code as the specification words it: the first
    whitespace-separated token of the Status header, read as a decimal
    integer. *)
Definition is_space (c : ascii) : bool :=
  let n := N_of_ascii c in
  ((n =? 32) || (9 <=? n) && (n <=? 13))%N.

Fixpoint token (s : string) : string :=
  match s with
  | EmptyString => EmptyString
  | String c s' => if is_space c then EmptyString else String c (token s')
  end.

Fixpoint first_token (s : string) : string :=
  match s with
  | EmptyString => EmptyString
  | String c s' => if is_space c then first_token s' else token s
  end.

Definition spec_status_code (status : string) : option Z :=
  match Atoi (first_token status) with
  | inr code => Some code
  | inl _ => None
  end.

(** The acquisition as the specification words it: it waits for a
    connection and gives up with AcquireCancelled when the context is
    cancelled. *)
Inductive acquired : Type :=
| Acquired (conn : FCgiConnection)
| AcquireCancelled
| StillWaiting.

Fixpoint spec_acquire (evs : list pool_event) (pool : list FCgiConnection) : acquired :=
  match pool with
  | conn :: _ => Acquired conn
  | [] =>
      match evs with
      | [] => StillWaiting
      | TimerFired :: evs' => spec_acquire evs' []
      | Released conn :: _ => Acquired conn
      | ContextCancelled :: _ => AcquireCancelled
      end
  end.

Definition is_cancel (ev : pool_event) : bool :=
  match ev with ContextCancelled => true | _ => false end.

Definition is_timer (ev : pool_event) : bool :=
  match ev with TimerFired => true | _ => false end.

Definition is_release (ev : pool_event) : bool :=
  match ev with Released _ => true | _ => false end.


(** ** Concrete sockets, requests and streams *)

Definition open_socket (inb : list byte) : NetConn := mkNetConn inb [] None false.

Definition fpm_connection (inb : list byte) : FCgiConnection :=
  mkFCgiConnection (open_socket inb) "/run/php-fpm.sock" 0.

Definition fpm_state (inb : list byte) (store : gmap loc (gmap string string)) : St :=
  mkSt (fpm_connection inb) [] store.

Definition request_1 : FCgiRequest := mkFCgiRequest 1%positive [] 1.

(** The stdout of a script that prints one header line and no body. *)
Definition stdout_of (header_line : string) : list byte :=
  bytes_of_string (header_line ++ CRLF ++ CRLF)%string.

(** The records FPM answers request [id] with: one STDOUT, one END_REQUEST. *)
Definition response_stream (id : Z) (header_line : string) : list byte :=
  record_bytes id FCGI_STDOUT (stdout_of header_line)
    ++ record_bytes id FCGI_END_REQUEST (replicate 8 x00).

(** A STDOUT record of request 2 whose eight payload bytes read as the
    header of an END_REQUEST record of request 1, ahead of the answer to
    request 1. *)
Definition foreign_payload : list byte :=
  encode_header (mkFCgiRecord FCGI_VERSION FCGI_END_REQUEST 1 0 0 0).

Definition foreign_stream : list byte :=
  record_bytes 2 FCGI_STDOUT foreign_payload
    ++ response_stream 1 "Status: 404 Not Found".

(** A header value of 65522 bytes: with the key ["HTTP_X"] and the two
    4-byte lengths the PARAMS payload is 65536 bytes long. *)
Definition big_value : string :=
  string_of_list_byte (replicate (Z.to_nat 65522) x61).

Definition oversized_state : St :=
  fpm_state [] {[ 1%positive := {[ "HTTP_X" := big_value ]} ]}.

(** A STDERR record of request 1 that announces 65535 content bytes and
    one byte of padding. *)
Definition wrapping_header : list byte :=
  encode_header (mkFCgiRecord FCGI_VERSION FCGI_STDERR 1 65535 1 0).

(** A world whose only pooled connection meets EOF, as does the socket the
    next dial returns. *)
Definition eof_world : World :=
  mkWorld (mkFCgiClient [fpm_connection []] 0) [Some (open_socket [])]
          {[ 1%positive := ∅ ]}.

Definition waiting_events : list pool_event :=
  [TimerFired; ContextCancelled; TimerFired].

Definition request_abc : FCgiRequest :=
  mkFCgiRequest 1%positive [x61; x62; x63] 1.

Definition post_state : St :=
  fpm_state [] {[ 1%positive := {[ "REQUEST_METHOD" := "POST"%string ]} ]}.

Definition not_found_state : St :=
  fpm_state (response_stream 1 "Status: 404 Not Found") ∅.

Definition not_found_response : HttpResponse :=
  mkHttpResponse "404 Not Found" 404 {[ "Status" := ["404 Not Found"%string] ]} [].

(** ** Further vocabulary *)

(** A header whose fields fit their wire widths. *)
Definition valid_header (h : FCgiRecord) : Prop :=
  0 <= Version h < 256 /\ 0 <= Type_ h < 256 /\ 0 <= RequestId h < 65536
  /\ 0 <= ContentLength h < 65536 /\ 0 <= PaddingLength h < 256
  /\ 0 <= Reserved h < 256.



(** A computation that writes nothing: the bytes sent and the write budget
    stay as they are. *)
Definition writes_nothing {A : Type} (m : M A) : Prop :=
  forall st,
    outbound (Conn (fc (snd (m st)))) = outbound (Conn (fc st))
    /\ writes_left (Conn (fc (snd (m st)))) = writes_left (Conn (fc st)).

(** A response as FPM frames it: records [(type, payload)] of one request,
    then its END_REQUEST record. *)
Definition stream_of (id : Z) (rs : list (Z * list byte)) : list byte :=
  concat (map (fun '(ty, d) => record_bytes id ty d) rs).

Definition stdout_payloads (rs : list (Z * list byte)) : list byte :=
  concat (map (fun '(ty, d) => if ty =? FCGI_STDOUT then d else []) rs).

(** A record readResponse reads back whole: its type fits a byte and is
    not END_REQUEST, and content plus padding stay below 65536. *)
Definition readable_record (rec : Z * list byte) : Prop :=
  0 <= fst rec < 256 /\ fst rec <> FCGI_END_REQUEST /\ len (snd rec) <= 65528.

(** The PARAMS records of the entries of a map, in the order of a range. *)
Definition params_records (id : Z) (entries : list (string * string)) : list byte :=
  concat (map (fun '(name, value) =>
                 record_bytes id FCGI_PARAMS (param_payload name value)) entries).

(** The map sendParams ranges over. *)
Definition params_sent (r : FCgiRequest) (m : gmap string string) : gmap string string :=
  if len (Body r) >? 0 then <["CONTENT_LENGTH" := Itoa (len (Body r))]> m else m.

(** The store once sendParams has run for [r]. *)
Definition store_sent (r : FCgiRequest) (ms : gmap loc (gmap string string))
  : gmap loc (gmap string string) :=
  match ms !! Params r with
  | Some m => <[Params r := params_sent r m]> ms
  | None => ms
  end.

(** The body of the BEGIN_REQUEST record: role responder, keep-alive. *)
Definition begin_request_body : list byte :=
  [x00; x01; x01; x00; x00; x00; x00; x00].


(** A STDOUT record header of request 1 that announces 65535 content bytes
    and one byte of padding, as writeRecord frames a payload of 65535
    bytes. *)
Definition wrapping_stdout_header : list byte :=
  encode_header (mkFCgiRecord FCGI_VERSION FCGI_STDOUT 1 65535 1 0).

(** Two records of request 1 and its END_REQUEST. *)
Definition hello_records : list (Z * list byte) :=
  [(FCGI_STDOUT, [x68; x69]); (FCGI_STDERR, [x65; x72; x72])].

Definition hello_state : St :=
  fpm_state (stream_of 1 hello_records
               ++ record_bytes 1 FCGI_END_REQUEST (replicate 8 x00) ++ [x7a]) ∅.


(** The eight entries Call writes before it looks at the headers. *)
Definition base_params (config : Adapter.Config) (request : Adapter.HttpRequest)
  : gmap string string :=
  <["CONTENT_TYPE" := Header_Get (Adapter.ReqHeader request) "Content-Type"]>
  (<["REQUEST_METHOD" := Adapter.Method request]>
  (<["QUERY_STRING" := Adapter.QueryEncoded request]>
  (<["REQUEST_URI" := Adapter.RequestURI request]>
  (<["SERVER_PORT" := Itoa (Adapter.Port config)]>
  (<["SERVER_NAME" := Adapter.Host request]>
  (<["SERVER_SOFTWARE" := "gophpfpm/1.0.0"]>
  (<["SCRIPT_FILENAME" := Adapter.IndexFile config]> ∅))))))).

(** The step of the inner loop of Call for one value of the header [name]. *)
Definition propagate (name : string) (params : gmap string string) (header : string)
  : gmap string string :=
  match Adapter.protectedHeadersInbound !! Adapter.ToLower name with
  | Some _ => params
  | None => <[("HTTP_" ++ Adapter.ToUpper name)%string := header]> params
  end.

Definition example_config : Adapter.Config := Adapter.mkConfig 8080 "/app/index.php".

Definition example_request : Adapter.HttpRequest :=
  Adapter.mkHttpRequest "example.com" "POST" "/api/users?foo=bar" "foo=bar"
    {[ "Content-Type" := ["application/json"%string];
       "Accept" := ["text/html"%string; "application/json"%string] ]}
    (inr [x62; x6f; x64; x79]).

Definition example_world : World :=
  mkWorld (mkFCgiClient [fpm_connection []] 0) [] {[ 5%positive := ∅ ]}.

(** doRequest after its first record. *)
Definition after_header (range_order : forall V : Type, gmap string V -> list (string * V))
    (http_ReadResponse : list byte -> error + HttpResponse) (r : FCgiRequest)
  : M HttpResponse :=
  bind (wrap "could not send params" (sendParams range_order r))
       (fun _ => bind (wrap "could not send body" (sendBody r))
                      (fun _ => wrap "could not read response"
                                     (readResponse http_ReadResponse r))).
(** ** Bytes and big-endian words *)

Lemma Z_of_byte_of_Z (z : Z) : Z_of_byte (byte_of_Z z) = z mod 256.
Proof.
  unfold Z_of_byte, byte_of_Z.
  assert (Hr : 0 <= z mod 256 < 256) by (apply Z.mod_pos_bound; lia).
  destruct (Byte.of_N (Z.to_N (z mod 256))) as [b|] eqn:E.
  - apply Byte.to_of_N in E. rewrite E. lia.
  - apply Byte.of_N_None_iff in E. lia.
Qed.

Lemma Z_of_byte_range (b : byte) : 0 <= Z_of_byte b < 256.
Proof. unfold Z_of_byte. pose proof (Byte.to_N_bounded b). lia. Qed.

Lemma Uint16_PutUint16 (v : Z) :
  Uint16 (byte_of_Z (Z.shiftr v 8)) (byte_of_Z v) = uint16 v.
Proof.
  unfold Uint16, uint16. rewrite !Z_of_byte_of_Z.
  change 256 with (2 ^ 8). change 65536 with (2 ^ 16).
  apply Z.bits_inj'. intros n Hn.
  rewrite Z.lor_spec, Z.shiftl_spec by lia.
  destruct (Z.lt_ge_cases n 8) as [H8|H8].
  - rewrite (Z.testbit_neg_r _ (n - 8)) by lia.
    rewrite !Z.mod_pow2_bits_low by lia. reflexivity.
  - rewrite (Z.mod_pow2_bits_high v 8 n) by lia. rewrite orb_false_r.
    destruct (Z.lt_ge_cases n 16) as [H16|H16].
    + rewrite !Z.mod_pow2_bits_low by lia.
      rewrite Z.shiftr_spec by lia. f_equal. lia.
    + rewrite !Z.mod_pow2_bits_high by lia. reflexivity.
Qed.

Lemma land_neg_7 (n : Z) : Z.land (- n) 7 = (- n) mod 8.
Proof. change 7 with (Z.ones 3). rewrite Z.land_ones by lia. reflexivity. Qed.

Lemma padding_of_spec (data : list byte) :
  padding_of data = (- len data) mod 8.
Proof.
  unfold padding_of, uint8. rewrite land_neg_7.
  apply Z.mod_small.
  pose proof (Z.mod_pos_bound (- len data) 8). lia.
Qed.

Lemma decode_encode_header (h : FCgiRecord) :
  decode_header (encode_header h)
  = mkFCgiRecord (Version h mod 256) (Type_ h mod 256) (uint16 (RequestId h))
                 (uint16 (ContentLength h)) (PaddingLength h mod 256)
                 (Reserved h mod 256).
Proof.
  unfold encode_header, PutUint16. cbn [app decode_header].
  rewrite !Z_of_byte_of_Z, !Uint16_PutUint16. reflexivity.
Qed.

Lemma length_encode_header (h : FCgiRecord) : length (encode_header h) = 8%nat.
Proof. reflexivity. Qed.

(** ** Writes on the socket *)

Lemma can_write_le (k k' : nat) (st : St) :
  (k' <= k)%nat -> can_write k st -> can_write k' st.
Proof.
  unfold can_write. intros Hle [Hc Hw]. split; [exact Hc|].
  destruct (writes_left (Conn (fc st))); [lia | exact I].
Qed.

Lemma wrote_0 (st : St) : wrote 0 [] st = st.
Proof.
  destruct st as [[[i o w c] sp n] ds ms]. unfold wrote, set_Conn. cbn.
  rewrite app_nil_r. destruct w; cbn; [rewrite Nat.sub_0_r|]; reflexivity.
Qed.

Lemma wrote_wrote (a b : nat) (x y : list byte) (st : St) :
  wrote a x (wrote b y st) = wrote (b + a) (y ++ x) st.
Proof.
  destruct st as [[[i o w c] sp n] ds ms]. unfold wrote, set_Conn. cbn.
  rewrite app_assoc. destruct w; cbn; [|reflexivity].
  do 4 f_equal. lia.
Qed.

Lemma can_write_wrote (k j : nat) (bs : list byte) (st : St) :
  can_write (j + k) st -> can_write k (wrote j bs st).
Proof.
  destruct st as [[[i o w c] sp n] ds ms]. unfold can_write, wrote. cbn.
  intros [Hc Hw]. split; [exact Hc|]. destruct w; cbn; [lia | exact I].
Qed.

Lemma conn_Write_ok (data : list byte) (st : St) :
  can_write 1 st -> conn_Write data st = (Ok tt, wrote 1 data st).
Proof.
  destruct st as [[[i o w c] sp n] ds ms]. unfold can_write, conn_Write, wrote. cbn.
  intros [-> Hw]. destruct w as [[|m]|]; cbn; [lia | | reflexivity].
  rewrite Nat.sub_0_r. reflexivity.
Qed.

Lemma writeRecord_ok (requestId recordType : Z) (data : list byte) (st : St) :
  can_write 3 st ->
  writeRecord requestId recordType data st
  = (Ok tt, wrote 3 (record_bytes requestId recordType data) st).
Proof.
  intros Hw. unfold writeRecord, mbind, M_bind, bind, wrap.
  rewrite conn_Write_ok by (eapply can_write_le; [|exact Hw]; lia).
  rewrite conn_Write_ok
    by (apply can_write_wrote; eapply can_write_le; [|exact Hw]; lia).
  rewrite conn_Write_ok
    by (do 2 apply can_write_wrote; eapply can_write_le; [|exact Hw]; lia).
  rewrite !wrote_wrote. cbn [PaddingLength]. unfold record_bytes, record_header, padding_of.
  reflexivity.
Qed.

(** C5. Every record writeRecord emits carries, in its header, a padding
    length equal to [(- content_length) mod 8], which lies between 0 and 7
    and makes content plus padding a multiple of 8, and exactly that many
    zero bytes follow the payload on the wire. *)
Theorem writeRecord_padding (requestId recordType : Z) (data : list byte) (st : St) :
  can_write 3 st ->
  exists hdr : list byte,
    writeRecord requestId recordType data st
    = (Ok tt,
       wrote 3 (hdr ++ data
                    ++ replicate (Z.to_nat (PaddingLength (decode_header hdr))) x00) st)
    /\ length hdr = 8%nat
    /\ ContentLength (decode_header hdr) = uint16 (len data)
    /\ PaddingLength (decode_header hdr) = (- ContentLength (decode_header hdr)) mod 8
    /\ PaddingLength (decode_header hdr) = (- len data) mod 8
    /\ 0 <= PaddingLength (decode_header hdr) <= 7
    /\ (ContentLength (decode_header hdr) + PaddingLength (decode_header hdr)) mod 8 = 0.
Proof.
  intros Hw.
  exists (encode_header (record_header requestId recordType data)).
  rewrite decode_encode_header. cbn [ContentLength PaddingLength record_header].
  assert (Hp : padding_of data = (- len data) mod 8) by apply padding_of_spec.
  assert (Hr : 0 <= (- len data) mod 8 < 8) by (apply Z.mod_pos_bound; lia).
  assert (Hp' : padding_of data mod 256 = (- len data) mod 8).
  { rewrite Hp. apply Z.mod_small. lia. }
  assert (Hc : uint16 (uint16 (len data)) = uint16 (len data)).
  { unfold uint16. apply Z.mod_mod. lia. }
  rewrite Hp', Hc.
  assert (H8 : (- uint16 (len data)) mod 8 = (- len data) mod 8).
  { unfold uint16.
    rewrite (Z.div_mod (len data) 65536) at 2 by lia.
    replace (- (65536 * (len data / 65536) + len data mod 65536))
      with (- (len data mod 65536) + (- 8192 * (len data / 65536)) * 8) by lia.
    rewrite Z.mod_add by lia. reflexivity. }
  repeat split.
  - rewrite writeRecord_ok by exact Hw. unfold record_bytes. rewrite Hp. reflexivity.
  - symmetry. exact H8.
  - lia.
  - lia.
  - rewrite <- H8.
    rewrite Z.add_mod by lia. rewrite Z.mod_mod by lia. rewrite <- Z.add_mod by lia.
    rewrite Z.add_opp_diag_r. reflexivity.
Qed.

(** ** sendBody *)






Lemma sendBody_loop_ok (fuel : nat) (r : FCgiRequest) (i : Z) (st : St) :
  0 <= i -> Z.max 0 (len (Body r) - i) < Z.of_nat fuel ->
  can_write (3 * length (sendBody_chunks fuel (Body r) i)) st ->
  sendBody_loop fuel r i st
  = (Ok tt,
     wrote (3 * length (sendBody_chunks fuel (Body r) i))
           (concat (map (record_bytes (requestId r) FCGI_STDIN)
                        (sendBody_chunks fuel (Body r) i))) st).
Proof.
  revert i st. induction fuel as [|fuel IH]; intros i st Hi Hf Hw; [lia|].
  cbn [sendBody_loop sendBody_chunks] in *.
  destruct (Z.ltb_spec i (len (Body r))) as [Hlt|Hge].
  - cbn [length map concat] in *.
    replace (3 * S (length (sendBody_chunks fuel (Body r) (i + chunkSize))))%nat
      with (3 + 3 * length (sendBody_chunks fuel (Body r) (i + chunkSize)))%nat in * by lia.
    unfold mbind, M_bind, bind.
    rewrite writeRecord_ok by (eapply can_write_le; [|exact Hw]; lia).
    rewrite IH.
    + rewrite wrote_wrote. reflexivity.
    + unfold chunkSize. lia.
    + unfold chunkSize in *. lia.
    + apply can_write_wrote. exact Hw.
  - cbn [length map concat]. rewrite wrote_0. reflexivity.
Qed.


(** ** Frame: what the socket operations leave alone *)

Lemma same_but_socket_refl (st : St) : same_but_socket st st.
Proof. unfold same_but_socket. auto. Qed.

Lemma same_but_socket_trans (a b c : St) :
  same_but_socket a b -> same_but_socket b c -> same_but_socket a c.
Proof. unfold same_but_socket. intros (?&?&?&?) (?&?&?&?). repeat split; congruence. Qed.

Lemma same_but_socket_set_Conn (n : NetConn) (st : St) :
  same_but_socket st (set_Conn n st).
Proof. unfold same_but_socket, set_Conn. cbn. auto. Qed.

Lemma socket_only_ret {A : Type} (a : A) : socket_only (ret a).
Proof. intros st. apply same_but_socket_refl. Qed.

Lemma socket_only_throw {A : Type} (e : error) : socket_only (@throw A e).
Proof. intros st. apply same_but_socket_refl. Qed.

Lemma socket_only_panic {A : Type} (msg : string) : socket_only (@panic A msg).
Proof. intros st. apply same_but_socket_refl. Qed.

Lemma socket_only_bind {A B : Type} (m : M A) (k : A -> M B) :
  socket_only m -> (forall a, socket_only (k a)) -> socket_only (bind m k).
Proof.
  intros Hm Hk st. unfold bind. specialize (Hm st).
  destruct (m st) as [[a|e|msg|] st']; cbn in *; try exact Hm.
  eapply same_but_socket_trans; [exact Hm | apply Hk].
Qed.

Lemma socket_only_wrap {A : Type} (msg : string) (m : M A) :
  socket_only m -> socket_only (wrap msg m).
Proof.
  intros Hm st. unfold wrap. specialize (Hm st).
  destruct (m st) as [[a|e|msg'|] st']; exact Hm.
Qed.

Lemma socket_only_conn_Write (data : list byte) : socket_only (conn_Write data).
Proof.
  intros st. unfold conn_Write.
  destruct (closed (Conn (fc st))); [apply same_but_socket_refl|].
  destruct (writes_left (Conn (fc st))) as [[|n]|]; cbn [snd];
    first [apply same_but_socket_refl | apply same_but_socket_set_Conn].
Qed.

Lemma socket_only_binary_Read (n : nat) : socket_only (binary_Read n).
Proof.
  intros st. unfold binary_Read. destruct n; [apply same_but_socket_refl|].
  destruct (closed (Conn (fc st))); [apply same_but_socket_refl|].
  destruct (inbound (Conn (fc st))); [apply same_but_socket_refl|].
  destruct (_ <? _)%nat; apply same_but_socket_set_Conn.
Qed.

Lemma socket_only_writeRecord (requestId recordType : Z) (data : list byte) :
  socket_only (writeRecord requestId recordType data).
Proof.
  unfold writeRecord, mbind, M_bind.
  repeat (apply socket_only_bind; [|intros _]);
    apply socket_only_wrap, socket_only_conn_Write.
Qed.

Lemma socket_only_for_each {A : Type} (f : A -> M unit) (l : list A) :
  (forall a, socket_only (f a)) -> socket_only (for_each f l).
Proof.
  intros Hf. induction l as [|x l IH]; cbn [for_each].
  - apply socket_only_ret.
  - apply socket_only_bind; [apply Hf | intros _; exact IH].
Qed.

Lemma socket_only_sendHeader (r : FCgiRequest) : socket_only (sendHeader r).
Proof. unfold sendHeader. apply socket_only_writeRecord. Qed.

Lemma socket_only_sendBody_loop (fuel : nat) (r : FCgiRequest) (i : Z) :
  socket_only (sendBody_loop fuel r i).
Proof.
  revert i. induction fuel as [|fuel IH]; intros i; cbn [sendBody_loop].
  - intros st. apply same_but_socket_refl.
  - destruct (i <? len (Body r)); [|apply socket_only_ret].
    apply socket_only_bind; [apply socket_only_writeRecord | intros _; apply IH].
Qed.

Lemma socket_only_sendBody (r : FCgiRequest) : socket_only (sendBody r).
Proof.
  unfold sendBody. apply socket_only_bind.
  - destruct (len (Body r) >? 0); [apply socket_only_sendBody_loop | apply socket_only_ret].
  - intros _. apply socket_only_writeRecord.
Qed.

Lemma socket_only_read_iteration (req : FCgiRequest) (stdout : list byte) :
  socket_only (read_iteration req stdout).
Proof.
  unfold read_iteration, mbind, M_bind.
  apply socket_only_bind; [apply socket_only_wrap, socket_only_binary_Read|].
  intros hb. destruct (negb _); [apply socket_only_ret|].
  apply socket_only_bind; [apply socket_only_wrap, socket_only_binary_Read|].
  intros b. apply socket_only_bind; [|intros; apply socket_only_ret].
  destruct (_ =? _); [|apply socket_only_ret].
  destruct (_ <=? _); [apply socket_only_ret | apply socket_only_panic].
Qed.

Lemma socket_only_readRecords (fuel : nat) (req : FCgiRequest) (stdout : list byte) :
  socket_only (readRecords fuel req stdout).
Proof.
  revert stdout. induction fuel as [|fuel IH]; intros stdout; cbn [readRecords].
  - intros st. apply same_but_socket_refl.
  - apply socket_only_bind; [apply socket_only_read_iteration|].
    intros [d out]. cbn [fst snd]. destruct d; [apply socket_only_ret | apply IH].
Qed.

Lemma socket_only_parse_status (resp : HttpResponse) : socket_only (parse_status resp).
Proof.
  unfold parse_status. destruct (negb _); [|apply socket_only_ret].
  destruct (_ <? _)%nat; [apply socket_only_throw|].
  destruct (Atoi _); [apply socket_only_throw | apply socket_only_ret].
Qed.

(** ** Reading records *)

Lemma consumed_0 (st : St) : consumed 0 st = st.
Proof. destruct st as [[[i o w c] sp n] ds ms]. reflexivity. Qed.

Lemma consumed_consumed (a b : nat) (st : St) :
  consumed b (consumed a st) = consumed (a + b) st.
Proof.
  destruct st as [[[i o w c] sp n] ds ms]. unfold consumed, set_Conn. cbn.
  rewrite drop_drop. reflexivity.
Qed.

Lemma inbound_consumed (n : nat) (st : St) :
  inbound (Conn (fc (consumed n st))) = drop n (inbound (Conn (fc st))).
Proof. reflexivity. Qed.

Lemma closed_consumed (n : nat) (st : St) :
  closed (Conn (fc (consumed n st))) = closed (Conn (fc st)).
Proof. reflexivity. Qed.

Lemma binary_Read_ok (n : nat) (st : St) :
  closed (Conn (fc st)) = false ->
  (n <= length (inbound (Conn (fc st))))%nat ->
  binary_Read n st = (Ok (take n (inbound (Conn (fc st)))), consumed n st).
Proof.
  destruct st as [[[i o w c] sp k] ds ms]. cbn. intros -> Hn.
  unfold binary_Read, consumed, set_Conn. cbn.
  destruct n as [|n]; [reflexivity|].
  destruct i as [|b i]; [cbn in Hn; lia|].
  destruct (Nat.leb_spec (length (b :: i)) n) as [Hlt|_]; [cbn in *; lia|].
  reflexivity.
Qed.

(** A record of another request: the iteration reads its 8 header bytes
    and nothing else, whatever lengths the header announces. *)
Lemma read_iteration_foreign (req : FCgiRequest) (stdout hb rest : list byte) (st : St) :
  closed (Conn (fc st)) = false ->
  inbound (Conn (fc st)) = hb ++ rest ->
  length hb = 8%nat ->
  requestId req <> RequestId (decode_header hb) ->
  read_iteration req stdout st = (Ok (false, stdout), consumed 8 st).
Proof.
  intros Hc Hin Hlen Hid.
  unfold read_iteration, mbind, M_bind, bind, wrap.
  rewrite binary_Read_ok by (rewrite ?Hin, ?length_app; lia || exact Hc).
  rewrite Hin, take_app_length' by (symmetry; exact Hlen).
  destruct (Z.eqb_spec (requestId req) (RequestId (decode_header hb))); [contradiction|].
  reflexivity.
Qed.

(** A record of the request in flight: after the header the iteration
    reads [uint16 (ContentLength + PaddingLength)] bytes. *)
Lemma read_iteration_matching (req : FCgiRequest) (stdout hb rest : list byte) (st : St) :
  closed (Conn (fc st)) = false ->
  inbound (Conn (fc st)) = hb ++ rest ->
  length hb = 8%nat ->
  requestId req = RequestId (decode_header hb) ->
  uint16 (ContentLength (decode_header hb) + PaddingLength (decode_header hb)) <= len rest ->
  let h := decode_header hb in
  let n := Z.to_nat (uint16 (ContentLength h + PaddingLength h)) in
  read_iteration req stdout st
  = (if Type_ h =? FCGI_STDOUT then
       if ContentLength h <=? Z.of_nat n
       then Ok (false, stdout ++ take (Z.to_nat (ContentLength h)) (take n rest))
       else Panic "slice bounds out of range"
     else Ok (Type_ h =? FCGI_END_REQUEST, stdout),
     consumed (8 + n) st).
Proof.
  intros Hc Hin Hlen Hid Hn h n.
  unfold read_iteration, mbind, M_bind, bind, wrap.
  rewrite binary_Read_ok by (rewrite ?Hin, ?length_app; lia || exact Hc).
  rewrite Hin, take_app_length' by (symmetry; exact Hlen).
  fold h. destruct (Z.eqb_spec (requestId req) (RequestId h)); [|contradiction].
  cbn [negb]. fold n.
  assert (Hc8 : closed (Conn (fc (consumed 8 st))) = false).
  { destruct st as [[[i o w c] sp k] ds ms]. exact Hc. }
  assert (Hin8 : inbound (Conn (fc (consumed 8 st))) = rest).
  { destruct st as [[[i o w c] sp k] ds ms]. cbn in *. subst i.
    apply drop_app_length'. symmetry; exact Hlen. }
  assert (Hnle : (n <= length rest)%nat).
  { subst n h. unfold len in Hn. lia. }
  rewrite binary_Read_ok by (rewrite ?Hin8; assumption).
  rewrite Hin8, consumed_consumed.
  assert (Hlb : len (take n rest) = Z.of_nat n).
  { unfold len. rewrite length_take. lia. }
  rewrite Hlb.
  destruct (Type_ h =? FCGI_STDOUT) eqn:Ety.
  - destruct (ContentLength h <=? Z.of_nat n); unfold ret, panic; cbn.
    + apply Z.eqb_eq in Ety. rewrite Ety. reflexivity.
    + reflexivity.
  - reflexivity.
Qed.

(** C9. For a record of the request in flight, readResponse reads, after
    the header, [(content_length + padding_length) mod 65536] bytes; when
    the sum reaches 65536 that is less than the record occupies, and for
    content length 65535 with padding 1 it is nothing at all. *)
Theorem read_iteration_uint16_wrap (req : FCgiRequest) (stdout hb rest : list byte)
    (st : St) :
  closed (Conn (fc st)) = false ->
  inbound (Conn (fc st)) = hb ++ rest ->
  length hb = 8%nat ->
  requestId req = RequestId (decode_header hb) ->
  (ContentLength (decode_header hb) + PaddingLength (decode_header hb)) mod 65536
    <= len rest ->
  let cl := ContentLength (decode_header hb) in
  let pl := PaddingLength (decode_header hb) in
  snd (read_iteration req stdout st)
  = consumed (8 + Z.to_nat ((cl + pl) mod 65536)) st
  /\ inbound (Conn (fc (snd (read_iteration req stdout st))))
     = drop (Z.to_nat ((cl + pl) mod 65536)) rest
  /\ (65536 <= cl + pl -> (cl + pl) mod 65536 < cl + pl)
  /\ (cl = 65535 -> pl = 1 ->
      inbound (Conn (fc (snd (read_iteration req stdout st)))) = rest).
Proof.
  intros Hc Hin Hlen Hid Hn cl pl.
  assert (Hstep : snd (read_iteration req stdout st)
                  = consumed (8 + Z.to_nat ((cl + pl) mod 65536)) st).
  { rewrite (read_iteration_matching req stdout hb rest st Hc Hin Hlen Hid Hn).
    reflexivity. }
  assert (Hdrop : inbound (Conn (fc (consumed (8 + Z.to_nat ((cl + pl) mod 65536)) st)))
                  = drop (Z.to_nat ((cl + pl) mod 65536)) rest).
  { rewrite inbound_consumed, Hin, <- drop_drop.
    rewrite drop_app_length' by (symmetry; exact Hlen). reflexivity. }
  split; [exact Hstep|]. rewrite Hstep, Hdrop.
  split; [reflexivity|]. split.
  - intros Hbig. pose proof (Z.mod_pos_bound (cl + pl) 65536). lia.
  - intros -> ->. reflexivity.
Qed.

(** ** The status override *)

Lemma Split_space_nonempty (s : string) : Split_space s <> [].
Proof.
  induction s as [|c s IH]; cbn [Split_space]; [discriminate|].
  destruct (Ascii.eqb c " "); [discriminate|].
  destruct (Split_space s); discriminate.
Qed.

Lemma Split_space_hd (s : string) :
  List.hd EmptyString (Split_space s) = first_field s.
Proof.
  induction s as [|c s IH]; cbn [Split_space first_field]; [reflexivity|].
  destruct (Ascii.eqb c " "); [reflexivity|].
  pose proof (Split_space_nonempty s) as Hne.
  destruct (Split_space s) as [|f fs]; [contradiction|].
  cbn [List.hd] in *. rewrite IH. reflexivity.
Qed.

Lemma Split_space_short (s : string) :
  (length (Split_space s) <? 2)%nat = negb (has_space s).
Proof.
  induction s as [|c s IH]; cbn [Split_space has_space]; [reflexivity|].
  pose proof (Split_space_nonempty s) as Hne.
  destruct (Ascii.eqb c " "); cbn [orb negb].
  - destruct (Split_space s) as [|f fs]; [contradiction|]. reflexivity.
  - destruct (Split_space s) as [|f fs]; [contradiction|]. exact IH.
Qed.

Lemma parse_status_absent (resp : HttpResponse) (st : St) :
  Header_Get (Header resp) "Status" = EmptyString ->
  parse_status resp st = (Ok resp, st).
Proof. intros H. unfold parse_status. rewrite H. reflexivity. Qed.

Lemma parse_status_no_space (resp : HttpResponse) (st : St) :
  Header_Get (Header resp) "Status" <> EmptyString ->
  has_space (Header_Get (Header resp) "Status") = false ->
  parse_status resp st = (Err (Errorf_nil "could not parse status code"), st).
Proof.
  intros Hne Hsp. unfold parse_status.
  apply String.eqb_neq in Hne. rewrite Hne. cbn [negb].
  rewrite Split_space_short, Hsp. reflexivity.
Qed.

Lemma parse_status_code (resp : HttpResponse) (st : St) (code : Z) :
  Header_Get (Header resp) "Status" <> EmptyString ->
  has_space (Header_Get (Header resp) "Status") = true ->
  Atoi (first_field (Header_Get (Header resp) "Status")) = inr code ->
  parse_status resp st
  = (Ok (mkHttpResponse (Header_Get (Header resp) "Status") code (Header resp)
                        (RespBody resp)), st).
Proof.
  intros Hne Hsp Hcode. unfold parse_status.
  apply String.eqb_neq in Hne. rewrite Hne. cbn [negb].
  rewrite Split_space_short, Hsp, Split_space_hd, Hcode. reflexivity.
Qed.

Lemma parse_status_not_a_number (resp : HttpResponse) (st : St) (e : error) :
  Header_Get (Header resp) "Status" <> EmptyString ->
  has_space (Header_Get (Header resp) "Status") = true ->
  Atoi (first_field (Header_Get (Header resp) "Status")) = inl e ->
  parse_status resp st = (Err (Errorf "could not parse status code" e), st).
Proof.
  intros Hne Hsp Hcode. unfold parse_status.
  apply String.eqb_neq in Hne. rewrite Hne. cbn [negb].
  rewrite Split_space_short, Hsp, Split_space_hd, Hcode. reflexivity.
Qed.

(** ** The loops end within their fuel *)
















(** ** sendParams *)

Section ClientProperties.

Variable range_order : forall V : Type, gmap string V -> list (string * V).
Variable http_ReadResponse : list byte -> error + HttpResponse.


(** The store after sendParams, whatever becomes of its writes. *)
Lemma sendParams_maps (r : FCgiRequest) (st : St) :
  maps (snd (sendParams range_order r st))
  = if len (Body r) >? 0 then
      match maps st !! Params r with
      | Some m =>
          <[Params r := <["CONTENT_LENGTH" := Itoa (len (Body r))]> m]> (maps st)
      | None => maps st
      end
    else maps st.
Proof.
  assert (Hrest : forall st0 : St,
    maps (snd ((entries ← map_range range_order (Params r) ;
                for_each (fun '(name, value) =>
                            writeRecord (requestId r) FCGI_PARAMS
                                        (param_payload name value)) entries ;;
                writeRecord (requestId r) FCGI_PARAMS []) st0)) = maps st0).
  { intros st0.
    unfold mbind, M_bind, bind at 1, map_range.
    destruct (maps st0 !! Params r) as [m|].
    - match goal with |- maps (snd (?f st0)) = _ =>
        assert (Hs : socket_only f) end.
      { apply socket_only_bind; [|intros _; apply socket_only_writeRecord].
        apply socket_only_for_each. intros [name value]. apply socket_only_writeRecord. }
      apply (Hs st0).
    - match goal with |- maps (snd (?f st0)) = _ =>
        assert (Hs : socket_only f) end.
      { apply socket_only_bind; [|intros _; apply socket_only_writeRecord].
        apply socket_only_for_each. intros [name value]. apply socket_only_writeRecord. }
      apply (Hs st0). }
  unfold sendParams. unfold mbind at 1, M_bind at 1, bind at 1.
  destruct (len (Body r) >? 0).
  - unfold map_assign. destruct (maps st !! Params r) as [m|]; [|reflexivity].
    rewrite Hrest. reflexivity.
  - unfold ret at 1. apply Hrest.
Qed.

(** C10. With a non-empty body, sendParams writes the CONTENT_LENGTH entry
    into the map the request points to, in the store: every holder of that
    map (the adapter that built it, the same request on the retry) finds
    the key afterwards, the other entries of the map are as before, and so
    are the other maps. *)
Theorem sendParams_content_length_in_place (r : FCgiRequest) (st : St)
    (m : gmap string string) :
  maps st !! Params r = Some m ->
  len (Body r) > 0 ->
  exists m' : gmap string string,
    maps (snd (sendParams range_order r st)) !! Params r = Some m'
    /\ m' !! "CONTENT_LENGTH" = Some (Itoa (len (Body r)))
    /\ (forall k : string, k ≠ "CONTENT_LENGTH" -> m' !! k = m !! k)
    /\ (forall p : loc, p ≠ Params r ->
          maps (snd (sendParams range_order r st)) !! p = maps st !! p)
    /\ (forall r' : FCgiRequest, Params r' = Params r ->
          maps (snd (sendParams range_order r st)) !! Params r' = Some m').
Proof.
  intros Hm Hbody.
  exists (<["CONTENT_LENGTH" := Itoa (len (Body r))]> m).
  rewrite sendParams_maps, Hm.
  destruct (Z.gtb_spec (len (Body r)) 0) as [_|Hle]; [|lia].
  repeat split.
  - apply lookup_insert_eq.
  - apply lookup_insert_eq.
  - intros k Hk. apply lookup_insert_ne. congruence.
  - intros p Hp. apply lookup_insert_ne. congruence.
  - intros r' ->. apply lookup_insert_eq.
Qed.

(** ** readResponse *)

Lemma readResponse_unfold (req : FCgiRequest) (st : St) :
  readResponse http_ReadResponse req st
  = match readRecords (S (length (inbound (Conn (fc st))))) req [] st with
    | (Ok stdout, st1) =>
        match http_ReadResponse (preamble ++ stdout) with
        | inl err => (Err (Errorf "could not read response as http response" err), st1)
        | inr httpResponse => parse_status httpResponse st1
        end
    | (Err e, st1) => (Err e, st1)
    | (Panic msg, st1) => (Panic msg, st1)
    | (OutOfFuel, st1) => (OutOfFuel, st1)
    end.
Proof.
  unfold readResponse, mbind, M_bind, bind.
  destruct (readRecords _ req [] st) as [[stdout|e|msg|] st1]; try reflexivity.
  destruct (http_ReadResponse (preamble ++ stdout)); reflexivity.
Qed.


Lemma socket_only_readResponse (req : FCgiRequest) : socket_only (readResponse http_ReadResponse req).
Proof.
  intros st. rewrite readResponse_unfold.
  pose proof (socket_only_readRecords (S (length (inbound (Conn (fc st))))) req [] st) as Hs.
  destruct (readRecords _ req [] st) as [[stdout|e|msg|] st1]; cbn [snd] in *;
    try exact Hs.
  destruct (http_ReadResponse (preamble ++ stdout)); [exact Hs|].
  eapply same_but_socket_trans; [exact Hs | apply socket_only_parse_status].
Qed.

(** C2 (amended). Once the records are read: without a Status header (or
    with an empty one) readResponse succeeds with the parsed response and
    status code 200; with a Status that has a space and whose text before
    the first space Atoi accepts, it succeeds with that number as status
    code and the whole header value as status text; and it fails exactly
    when net/http rejects the synthesized bytes, or the Status is not empty
    and either has no space or does not start with a number. *)
Theorem readResponse_status_override (req : FCgiRequest) (st st1 : St)
    (stdout : list byte) :
  (forall bs resp, http_ReadResponse (preamble ++ bs) = inr resp ->
                   StatusCode resp = 200) ->
  readRecords (S (length (inbound (Conn (fc st))))) req [] st = (Ok stdout, st1) ->
  (forall resp, http_ReadResponse (preamble ++ stdout) = inr resp ->
     (Header_Get (Header resp) "Status" = EmptyString ->
        readResponse http_ReadResponse req st = (Ok resp, st1) /\ StatusCode resp = 200)
     /\ (forall code,
           Header_Get (Header resp) "Status" <> EmptyString ->
           has_space (Header_Get (Header resp) "Status") = true ->
           Atoi (first_field (Header_Get (Header resp) "Status")) = inr code ->
           readResponse http_ReadResponse req st
           = (Ok (mkHttpResponse (Header_Get (Header resp) "Status") code
                                 (Header resp) (RespBody resp)), st1)))
  /\ (~ is_Ok (fst (readResponse http_ReadResponse req st)) <->
      (exists err, http_ReadResponse (preamble ++ stdout) = inl err)
      \/ (exists resp,
            http_ReadResponse (preamble ++ stdout) = inr resp
            /\ Header_Get (Header resp) "Status" <> EmptyString
            /\ (has_space (Header_Get (Header resp) "Status") = false
                \/ exists err,
                     Atoi (first_field (Header_Get (Header resp) "Status")) = inl err))).
Proof.
  intros H200 Hread. rewrite readResponse_unfold, Hread. split.
  - intros resp Hresp. rewrite Hresp. split.
    + intros Habs. rewrite parse_status_absent by exact Habs.
      split; [reflexivity | eapply H200; exact Hresp].
    + intros code Hne Hsp Hcode. apply parse_status_code; assumption.
  - destruct (http_ReadResponse (preamble ++ stdout)) as [err|resp] eqn:Hparse.
    + cbn [fst is_Ok]. split; [intros _; left; eauto | tauto].
    + destruct (String.eqb_spec (Header_Get (Header resp) "Status") EmptyString)
        as [Habs|Hne].
      * rewrite parse_status_absent by exact Habs. cbn [fst is_Ok]. split; [tauto|].
        intros [[err Herr]|(resp' & Hr & Hne & _)]; [discriminate|].
        injection Hr as <-. contradiction.
      * destruct (has_space (Header_Get (Header resp) "Status")) eqn:Hsp.
        -- destruct (Atoi (first_field (Header_Get (Header resp) "Status")))
             as [err|code] eqn:Hcode.
           ++ rewrite (parse_status_not_a_number resp st1 err) by assumption.
              cbn [fst is_Ok]. split; [|tauto]. intros _. right.
              exists resp. repeat split; [exact Hne|]. right. eauto.
           ++ rewrite (parse_status_code resp st1 code) by assumption.
              cbn [fst is_Ok]. split; [tauto|].
              intros [[err Herr]|(resp' & Hr & _ & [Hno|[err Herr]])];
                [discriminate | |]; injection Hr as <-; congruence.
        -- rewrite parse_status_no_space by assumption.
           cbn [fst is_Ok]. split; [|tauto]. intros _. right.
           exists resp. repeat split; [exact Hne|]. left. exact Hsp.
Qed.


(** ** doRequest, reconnect and SendRequest *)

Lemma keeps_slot_socket_only {A : Type} (m : M A) : socket_only m -> keeps_slot m.
Proof. intros Hm st. destruct (Hm st) as (?&?&?&?). auto. Qed.

Lemma keeps_slot_bind {A B : Type} (m : M A) (k : A -> M B) :
  keeps_slot m -> (forall a, keeps_slot (k a)) -> keeps_slot (bind m k).
Proof.
  intros Hm Hk st. unfold bind. specialize (Hm st).
  destruct (m st) as [[a|e|msg|] st']; cbn [snd] in *; try exact Hm.
  destruct (Hk a st') as (?&?&?), Hm as (?&?&?). repeat split; congruence.
Qed.

Lemma keeps_slot_wrap {A : Type} (msg : string) (m : M A) :
  keeps_slot m -> keeps_slot (wrap msg m).
Proof.
  intros Hm st. unfold wrap. specialize (Hm st).
  destruct (m st) as [[a|e|msg'|] st']; exact Hm.
Qed.

Lemma keeps_slot_sendParams (r : FCgiRequest) : keeps_slot (sendParams range_order r).
Proof.
  unfold sendParams, mbind, M_bind.
  apply keeps_slot_bind.
  - destruct (len (Body r) >? 0).
    + intros st. unfold map_assign. destruct (maps st !! Params r); cbn; auto.
    + apply keeps_slot_socket_only, socket_only_ret.
  - intros _. apply keeps_slot_bind.
    + intros st. unfold map_range. destruct (maps st !! Params r); cbn; auto.
    + intros entries. apply keeps_slot_socket_only.
      apply socket_only_bind; [|intros _; apply socket_only_writeRecord].
      apply socket_only_for_each. intros [name value]. apply socket_only_writeRecord.
Qed.

Lemma keeps_slot_doRequest (r : FCgiRequest) : keeps_slot (doRequest range_order http_ReadResponse r).
Proof.
  unfold doRequest, mbind, M_bind.
  apply keeps_slot_bind;
    [apply keeps_slot_wrap, keeps_slot_socket_only, socket_only_sendHeader|intros _].
  apply keeps_slot_bind; [apply keeps_slot_wrap, keeps_slot_sendParams|intros _].
  apply keeps_slot_bind;
    [apply keeps_slot_wrap, keeps_slot_socket_only, socket_only_sendBody|intros _].
  apply keeps_slot_wrap, keeps_slot_socket_only, socket_only_readResponse.
Qed.


(** reconnect dials once: it takes the next dial, and on success the
    connection holds the socket that dial returned. *)
Lemma reconnect_spec (st : St) :
  dials (snd (reconnect st)) = tl (dials st)
  /\ socketPath (fc (snd (reconnect st))) = socketPath (fc st)
  /\ id (fc (snd (reconnect st))) = id (fc st)
  /\ maps (snd (reconnect st)) = maps st
  /\ match dials st with
     | Some sock :: _ =>
         fst (reconnect st) = Ok tt /\ Conn (fc (snd (reconnect st))) = sock
     | _ => fst (reconnect st) = Err (Errorf "could not reconnect" net_ErrDial)
     end.
Proof.
  unfold reconnect. destruct st as [[c sp k] ds ms]. cbn.
  destruct ds as [|[sock|] ds]; cbn; repeat split; reflexivity.
Qed.

(** C3 (amended). When the first doRequest of a SendRequest fails, one
    reconnect runs on the connection that was acquired: one dial is taken,
    and the connection that goes back to the pool has the same slot and
    path. If the reconnect fails the call returns its error under
    ["could not reconnect"]; otherwise doRequest runs once more on the
    same connection with the dialled socket, its response is returned as
    it is, and its error is returned wrapped under
    ["could not send the request"], with the error itself as the cause. *)
Theorem SendRequest_reconnect_once (evs evs' : list pool_event) (r : FCgiRequest)
    (w : World) (conn : FCgiConnection) (cl : FCgiClient) (e : error) (st1 : St) :
  findConnection evs (client w) = (Some conn, cl, evs') ->
  doRequest range_order http_ReadResponse r (mkSt conn (w_dials w) (w_maps w)) = (Err e, st1) ->
  w_dials (snd (SendRequest range_order http_ReadResponse evs r w)) = tl (w_dials w)
  /\ (exists conn',
        Pool (client (snd (SendRequest range_order http_ReadResponse evs r w))) = Pool cl ++ [conn']
        /\ id conn' = id conn /\ socketPath conn' = socketPath conn)
  /\ (forall e' st2,
        reconnect st1 = (Err e', st2) ->
        fst (SendRequest range_order http_ReadResponse evs r w) = Some (Err (Errorf "could not reconnect" e')))
  /\ (forall st2,
        reconnect st1 = (Ok tt, st2) ->
        (exists sock rest, w_dials w = Some sock :: rest /\ Conn (fc st2) = sock)
        /\ id (fc st2) = id conn /\ socketPath (fc st2) = socketPath conn
        /\ (forall e2 st3,
              doRequest range_order http_ReadResponse r st2 = (Err e2, st3) ->
              fst (SendRequest range_order http_ReadResponse evs r w)
              = Some (Err (Errorf "could not send the request" e2))
              /\ chain (Errorf "could not send the request" e2)
                 = Errorf "could not send the request" e2 :: chain e2)
        /\ (forall resp st3,
              doRequest range_order http_ReadResponse r st2 = (Ok resp, st3) ->
              fst (SendRequest range_order http_ReadResponse evs r w) = Some (Ok resp))).
Proof.
  intros Hfind Hdo.
  destruct (keeps_slot_doRequest r (mkSt conn (w_dials w) (w_maps w)))
    as (Hd1 & Hp1 & Hi1).
  rewrite Hdo in Hd1, Hp1, Hi1. cbn [snd dials fc] in Hd1, Hp1, Hi1.
  destruct (reconnect_spec st1) as (Hd2 & Hp2 & Hi2 & _ & Hres).
  unfold SendRequest. rewrite Hfind.
  unfold SendRequest_held. rewrite Hdo.
  destruct (reconnect st1) as [[[]|e'|msg|] st2] eqn:Hre; cbn [fst snd] in *.
  - destruct (keeps_slot_doRequest r st2) as (Hd3 & Hp3 & Hi3).
    assert (Hsock : exists sock rest, w_dials w = Some sock :: rest /\ Conn (fc st2) = sock).
    { rewrite Hd1 in Hres. destruct (w_dials w) as [|[sock|] rest];
        [discriminate Hres | | discriminate Hres].
      destruct Hres as [_ Hc]. eauto. }
    destruct (doRequest range_order http_ReadResponse r st2) as [[resp|e2|msg|] st3] eqn:Hdo2;
      cbn [fst snd w_dials client Pool] in *.
    all: split; [congruence|].
    all: split; [exists (fc st3); repeat split; congruence|].
    all: split; [intros ? ? [=]|].
    all: intros ? [= <-]; split; [exact Hsock|].
    all: split; [congruence|]; split; [congruence|].
    all: rewrite Hdo2; split; intros ? ? [=]; subst; auto.
  - cbn [fst snd w_dials client Pool].
    split; [congruence|].
    split; [exists (fc st2); repeat split; congruence|].
    split; [intros ? ? [= <- <-]; reflexivity | intros ? [=]].
  - exfalso. rewrite Hd1 in Hres.
    destruct (w_dials w) as [|[sock|] rest]; [discriminate Hres | | discriminate Hres].
    destruct Hres as [Hres _]. discriminate Hres.
  - exfalso. rewrite Hd1 in Hres.
    destruct (w_dials w) as [|[sock|] rest]; [discriminate Hres | | discriminate Hres].
    destruct Hres as [Hres _]. discriminate Hres.
Qed.

(** ** What sendParams leaves on the wire *)

Lemma len_bytes_of_string (s : string) : len (bytes_of_string s) = strlen s.
Proof.
  unfold len, strlen, bytes_of_string, list_byte_of_string. f_equal.
  rewrite length_map. induction s as [|c s IH]; [reflexivity|].
  cbn [list_ascii_of_string length String.length]. f_equal. exact IH.
Qed.

Lemma len_param_payload (name value : string) :
  len (param_payload name value) = 8 + strlen name + strlen value.
Proof.
  unfold param_payload, PutUint32.
  change (take 4 [?a; ?b; ?c; ?d]) with [a; b; c; d].
  pose proof (len_bytes_of_string name) as Hn.
  pose proof (len_bytes_of_string value) as Hv.
  unfold len in *. rewrite !length_app, <- Hn, <- Hv. cbn [length]. lia.
Qed.

Lemma for_each_params_ok (id : Z) (entries : list (string * string)) (st : St) :
  can_write (3 * length entries) st ->
  for_each (fun '(name, value) =>
              writeRecord id FCGI_PARAMS (param_payload name value)) entries st
  = (Ok tt, wrote (3 * length entries) (params_records id entries) st).
Proof.
  revert st. induction entries as [|[name value] entries IH]; intros st Hw.
  - cbn [for_each length]. unfold params_records. cbn [map concat].
    rewrite wrote_0. reflexivity.
  - cbn [for_each length] in *. unfold mbind, M_bind, bind.
    replace (3 * S (length entries))%nat with (3 + 3 * length entries)%nat in * by lia.
    rewrite writeRecord_ok by (eapply can_write_le; [|exact Hw]; lia).
    rewrite IH by (apply can_write_wrote; exact Hw).
    rewrite wrote_wrote. reflexivity.
Qed.

Lemma sendParams_ok (r : FCgiRequest) (st : St) (m : gmap string string) :
  maps st !! Params r = Some m ->
  can_write (3 * (length (range_order _ (params_sent r m)) + 1)) st ->
  sendParams range_order r st
  = (Ok tt,
     wrote (3 * (length (range_order _ (params_sent r m)) + 1))
           (params_records (requestId r) (range_order _ (params_sent r m))
              ++ record_bytes (requestId r) FCGI_PARAMS [])
           (set_maps (store_sent r (maps st)) st)).
Proof.
  intros Hm Hw.
  assert (Hrest : forall st0 : St,
    maps st0 !! Params r = Some (params_sent r m) ->
    can_write (3 * (length (range_order _ (params_sent r m)) + 1)) st0 ->
    (entries ← map_range range_order (Params r) ;
     for_each (fun '(name, value) =>
                 writeRecord (requestId r) FCGI_PARAMS
                             (param_payload name value)) entries ;;
     writeRecord (requestId r) FCGI_PARAMS []) st0
    = (Ok tt,
       wrote (3 * (length (range_order _ (params_sent r m)) + 1))
             (params_records (requestId r) (range_order _ (params_sent r m))
                ++ record_bytes (requestId r) FCGI_PARAMS []) st0)).
  { intros st0 Hm0 Hw0. unfold mbind, M_bind, bind, map_range. rewrite Hm0.
    rewrite for_each_params_ok by (eapply can_write_le; [|exact Hw0]; lia).
    rewrite writeRecord_ok
      by (apply can_write_wrote; eapply can_write_le; [|exact Hw0]; lia).
    rewrite wrote_wrote. do 2 f_equal. lia. }
  unfold sendParams, store_sent, params_sent in *. rewrite Hm.
  unfold mbind at 1, M_bind at 1, bind at 1.
  destruct (len (Body r) >? 0).
  - unfold map_assign. rewrite Hm. rewrite Hrest.
    + reflexivity.
    + apply lookup_insert_eq.
    + exact Hw.
  - unfold ret at 1. rewrite Hrest by assumption.
    rewrite insert_id by exact Hm. destruct st; reflexivity.
Qed.

End ClientProperties.

(** ** The parser model on the synthesized preamble *)

Lemma HttpModel_read_line_preamble (bs : list byte) :
  HttpModel.read_line (preamble ++ bs) = Some ("HTTP/1.0 200 OK"%string, bs).
Proof. reflexivity. Qed.

Lemma HttpModel_ReadResponse_200 (bs : list byte) (resp : HttpResponse) :
  HttpModel.ReadResponse (preamble ++ bs) = inr resp -> StatusCode resp = 200.
Proof.
  unfold HttpModel.ReadResponse. rewrite HttpModel_read_line_preamble.
  change (HttpModel.parse_status_line "HTTP/1.0 200 OK")
    with (@inr error _ ("200 OK"%string, 200)).
  cbv iota beta.
  destruct (HttpModel.read_headers (S (length bs)) bs ∅) as [err|[h body]];
    [discriminate|].
  intros [= <-]. reflexivity.
Qed.

(** ** The pool *)

Lemma findConnection_unfold (evs : list pool_event) (cl : FCgiClient) :
  findConnection evs cl
  = match Pool cl with
    | conn :: rest => (Some conn, mkFCgiClient rest (busy_logged cl), evs)
    | [] =>
        match evs with
        | [] => (None, cl, [])
        | TimerFired :: evs' =>
            findConnection evs' (mkFCgiClient [] (S (busy_logged cl)))
        | Released conn :: evs' => (Some conn, cl, evs')
        | ContextCancelled :: evs' => findConnection evs' cl
        end
    end.
Proof. destruct evs; reflexivity. Qed.

(** C4 (amended). findConnection has no case for a context: cancellations
    among the events change neither the connection it returns nor the
    client it leaves; it stops waiting only with a connection, the head of
    the pool or one that is put back; and on an empty pool with no
    connection put back it is still waiting when the events end, one log
    line written per timer. *)
Theorem findConnection_ignores_cancellation (evs : list pool_event) (cl : FCgiClient) :
  fst (findConnection evs cl)
  = fst (findConnection (List.filter (fun ev => negb (is_cancel ev)) evs) cl)
  /\ (Pool cl = [] -> List.existsb is_release evs = false ->
      findConnection evs cl
      = (None,
         mkFCgiClient [] (busy_logged cl + length (List.filter is_timer evs)), []))
  /\ (forall conn, fst (fst (findConnection evs cl)) = Some conn ->
        List.hd_error (Pool cl) = Some conn
        \/ (Pool cl = [] /\ In (Released conn) evs)).
Proof.
  revert cl. induction evs as [|ev evs IH]; intros cl.
  - rewrite !findConnection_unfold. cbn [List.filter].
    destruct cl as [[|c rest] n]; cbn [Pool busy_logged fst List.hd_error].
    + split; [reflexivity|]. split.
      * intros _ _. cbn [List.filter length]. rewrite Nat.add_0_r. reflexivity.
      * intros conn [=].
    + split; [reflexivity|]. split; [intros [=]|].
      intros conn [= <-]. left. reflexivity.
  - destruct cl as [[|c rest] n].
    + destruct ev as [|conn0|]; cbn [List.filter is_cancel negb List.existsb is_release
                                     is_timer orb length].
      * rewrite (findConnection_unfold (TimerFired :: evs)).
        rewrite (findConnection_unfold (TimerFired :: List.filter _ evs)).
        cbn [Pool busy_logged].
        destruct (IH (mkFCgiClient [] (S n))) as (H1 & H2 & H3).
        cbn [Pool busy_logged] in *.
        split; [exact H1|]. split.
        -- intros _ Hrel. rewrite H2 by auto. do 3 f_equal. lia.
        -- intros conn Hc. destruct (H3 conn Hc) as [[=]|[_ Hin]].
           right. split; [reflexivity | right; exact Hin].
      * rewrite (findConnection_unfold (Released conn0 :: evs)).
        rewrite (findConnection_unfold (Released conn0 :: List.filter _ evs)).
        cbn [Pool busy_logged fst]. split; [reflexivity|]. split; [intros _ [=]|].
        intros conn [= <-]. right. split; [reflexivity | left; reflexivity].
      * rewrite (findConnection_unfold (ContextCancelled :: evs)).
        cbn [Pool busy_logged].
        destruct (IH (mkFCgiClient [] n)) as (H1 & H2 & H3).
        cbn [Pool busy_logged] in *.
        split; [exact H1|]. split.
        -- intros _ Hrel. rewrite H2 by auto. reflexivity.
        -- intros conn Hc. destruct (H3 conn Hc) as [[=]|[_ Hin]].
           right. split; [reflexivity | right; exact Hin].
    + rewrite !findConnection_unfold.
      cbn [Pool busy_logged fst List.hd_error]. split; [reflexivity|].
      split; [intros [=]|].
      intros conn [= <-]. left. reflexivity.
Qed.

(** C4, counterexample. The pool is empty, the timer fires, the context is
    cancelled, the timer fires again: the acquisition the specification
    describes returns AcquireCancelled, findConnection is still waiting
    and has logged twice. *)
Lemma findConnection_waits_after_cancel :
  spec_acquire waiting_events [] = AcquireCancelled
  /\ findConnection waiting_events (mkFCgiClient [] 0) = (None, mkFCgiClient [] 2, []).
Proof. split; reflexivity. Qed.

(** ** Records of another request *)

(** C1, the code at a failing input. Request 1 reads a stream that opens
    with a STDOUT record of request 2. The first iteration leaves the
    stream at the payload of that record, not at the next record; the
    payload is then read as a header, here the END_REQUEST of request 1,
    so readResponse fails on an empty stdout and leaves the real answer
    unread, although the same stream without the foreign record yields
    status 404. *)
Theorem readResponse_foreign_record_not_drained :
  inbound (Conn (fc (snd (read_iteration request_1 [] (fpm_state foreign_stream ∅)))))
  = foreign_payload ++ response_stream 1 "Status: 404 Not Found"
  /\ readResponse HttpModel.ReadResponse request_1 (fpm_state foreign_stream ∅)
     = (Err (Errorf "could not read response as http response" io_ErrUnexpectedEOF),
        fpm_state (response_stream 1 "Status: 404 Not Found") ∅)
  /\ (exists resp,
        fst (readResponse HttpModel.ReadResponse request_1
               (fpm_state (response_stream 1 "Status: 404 Not Found") ∅)) = Ok resp
        /\ StatusCode resp = 404).
Proof.
  split; [vm_compute; reflexivity|]. split; [vm_compute; reflexivity|].
  eexists. split; [vm_compute; reflexivity | reflexivity].
Qed.

(** ** A pair too long for one record *)

(** C7, the code at a failing input. For the key ["HTTP_X"] and a value of
    65522 bytes the PARAMS payload is 65536 bytes long; sendParams writes
    it whole behind a header whose content length is 0, then the empty
    PARAMS record. *)
Theorem sendParams_oversized_pair :
  8 + strlen "HTTP_X" + strlen big_value = 65536
  /\ len (param_payload "HTTP_X" big_value) = 65536
  /\ fst (sendParams listed_order request_1 oversized_state) = Ok tt
  /\ outbound (Conn (fc (snd (sendParams listed_order request_1 oversized_state))))
     = encode_header (mkFCgiRecord FCGI_VERSION FCGI_PARAMS 1 0 0 0)
         ++ param_payload "HTTP_X" big_value
         ++ record_bytes 1 FCGI_PARAMS []
  /\ ContentLength
       (decode_header
          (take 8 (outbound (Conn (fc (snd (sendParams listed_order request_1
                                                       oversized_state)))))))
     = 0.
Proof.
  assert (Hsum : 8 + strlen "HTTP_X" + strlen big_value = 65536)
    by (vm_compute; reflexivity).
  assert (Hlen : len (param_payload "HTTP_X" big_value) = 65536)
    by (rewrite len_param_payload; exact Hsum).
  assert (Hrec : record_bytes 1 FCGI_PARAMS (param_payload "HTTP_X" big_value)
                 = encode_header (mkFCgiRecord FCGI_VERSION FCGI_PARAMS 1 0 0 0)
                     ++ param_payload "HTTP_X" big_value).
  { unfold record_bytes, record_header. rewrite padding_of_spec, Hlen.
    change (uint16 65536) with 0. change ((- 65536) mod 8) with 0.
    change (replicate (Z.to_nat 0) x00) with (@nil byte).
    rewrite app_nil_r. reflexivity. }
  pose proof (sendParams_ok listed_order request_1 oversized_state
                {[ "HTTP_X" := big_value ]}) as Hsend.
  assert (Hlist : listed_order string ({[ "HTTP_X" := big_value ]} : gmap string string)
                  = [("HTTP_X"%string, big_value)])
    by (unfold listed_order; apply map_to_list_singleton).
  change (params_sent request_1 {[ "HTTP_X" := big_value ]})
    with ({[ "HTTP_X" := big_value ]} : gmap string string) in Hsend.
  rewrite Hlist in Hsend.
  unfold params_records in Hsend. cbn [map concat length] in Hsend.
  change (requestId request_1) with 1 in Hsend.
  rewrite app_nil_r, Hrec in Hsend.
  rewrite Hsend.
  - cbn [fst snd].
    change (outbound (Conn (fc (wrote ?k ?bs (set_maps ?ms oversized_state)))))
      with (@nil byte ++ bs).
    rewrite !app_nil_l.
    split; [exact Hsum|]. split; [exact Hlen|]. split; [reflexivity|].
    split.
    + rewrite <- app_assoc. reflexivity.
    + rewrite <- app_assoc.
      rewrite take_app_length' by reflexivity.
      rewrite decode_encode_header. reflexivity.
  - apply lookup_singleton_eq.
  - split; [reflexivity | exact I].
Qed.

(** ** Counterexamples to the claims as worded *)

(** C2, counterexample. FPM prints ["Status: 404"]: net/http parses the
    synthesized bytes, the first whitespace-separated token of the Status
    header is 404, and readResponse fails. *)
Lemma readResponse_rejects_bare_status_code :
  HttpModel.ReadResponse (preamble ++ stdout_of "Status: 404")
  = inr (mkHttpResponse "200 OK" 200 {[ "Status" := ["404"%string] ]} [])
  /\ spec_status_code "404" = Some 404
  /\ fst (readResponse HttpModel.ReadResponse request_1
            (fpm_state (response_stream 1 "Status: 404") ∅))
     = Err (Errorf_nil "could not parse status code").
Proof. repeat split; vm_compute; reflexivity. Qed.


(** C3, counterexample. Both sockets meet EOF: the second doRequest fails
    with an error, and SendRequest returns another one, that error under
    ["could not send the request"]. *)
Lemma SendRequest_wraps_second_error :
  fst (doRequest listed_order HttpModel.ReadResponse request_1
         (mkSt (fpm_connection []) [] {[ 1%positive := ∅ ]}))
  = Err (Errorf "could not read response" (Errorf "could not read record header" io_EOF))
  /\ fst (SendRequest listed_order HttpModel.ReadResponse [] request_1 eof_world)
     = Some (Err (Errorf "could not send the request"
                    (Errorf "could not read response"
                       (Errorf "could not read record header" io_EOF))))
  /\ Errorf "could not send the request"
       (Errorf "could not read response" (Errorf "could not read record header" io_EOF))
     <> Errorf "could not read response" (Errorf "could not read record header" io_EOF).
Proof. split; [|split]; [vm_compute; reflexivity | vm_compute; reflexivity | discriminate]. Qed.

(** ** The theorems at concrete inputs *)

Lemma can_write_open (k : nat) (inb : list byte) (store : gmap loc (gmap string string)) :
  can_write k (fpm_state inb store).
Proof. split; [reflexivity | exact I]. Defined.

Lemma writeRecord_padding_witness :
  can_write 3 (fpm_state [] ∅)
  /\ exists hdr : list byte,
       outbound (Conn (fc (snd (writeRecord 1 FCGI_STDIN [x61; x62; x63]
                                            (fpm_state [] ∅)))))
       = hdr ++ [x61; x62; x63] ++ replicate 5 x00
       /\ PaddingLength (decode_header hdr) = 5.
Proof.
  split; [apply can_write_open|].
  destruct (writeRecord_padding 1 FCGI_STDIN [x61; x62; x63] (fpm_state [] ∅)
              (can_write_open 3 [] ∅))
    as (hdr & Heq & _ & _ & _ & Hpad & _).
  exists hdr. rewrite Heq, Hpad. split; reflexivity.
Defined.


Lemma read_iteration_uint16_wrap_witness :
  ContentLength (decode_header wrapping_header)
    + PaddingLength (decode_header wrapping_header) = 65536
  /\ inbound (Conn (fc (snd (read_iteration request_1 []
                               (fpm_state (wrapping_header ++ [x61]) ∅)))))
     = [x61].
Proof.
  split; [reflexivity|].
  refine (proj2 (proj2 (proj2
    (read_iteration_uint16_wrap request_1 [] wrapping_header [x61]
       (fpm_state (wrapping_header ++ [x61]) ∅) _ _ _ _ _))) _ _);
    try reflexivity.
  vm_compute. discriminate.
Defined.

Lemma sendParams_content_length_in_place_witness :
  exists m' : gmap string string,
    maps (snd (sendParams listed_order request_abc post_state)) !! 1%positive = Some m'
    /\ m' !! "CONTENT_LENGTH" = Some "3"%string
    /\ m' !! "REQUEST_METHOD" = Some "POST"%string.
Proof.
  destruct (sendParams_content_length_in_place listed_order request_abc post_state
              {[ "REQUEST_METHOD" := "POST"%string ]})
    as (m' & Hm' & Hcl & Hother & _).
  - reflexivity.
  - reflexivity.
  - exists m'. split; [exact Hm'|]. split; [exact Hcl|].
    rewrite Hother by discriminate. reflexivity.
Defined.

Lemma readResponse_status_override_witness :
  (forall bs resp, HttpModel.ReadResponse (preamble ++ bs) = inr resp ->
                   StatusCode resp = 200)
  /\ readResponse HttpModel.ReadResponse request_1 not_found_state
     = (Ok not_found_response, fpm_state [] ∅).
Proof.
  split; [exact HttpModel_ReadResponse_200|].
  destruct (readResponse_status_override HttpModel.ReadResponse request_1
              not_found_state (fpm_state [] ∅) (stdout_of "Status: 404 Not Found")
              HttpModel_ReadResponse_200) as [Hok _].
  - vm_compute. reflexivity.
  - destruct (Hok (mkHttpResponse "200 OK" 200
                     {[ "Status" := ["404 Not Found"%string] ]} [])) as [_ Hcode].
    + vm_compute. reflexivity.
    + rewrite (Hcode 404); [reflexivity | discriminate | reflexivity | reflexivity].
Defined.


Lemma SendRequest_reconnect_once_witness :
  w_dials (snd (SendRequest listed_order HttpModel.ReadResponse [] request_1 eof_world))
  = []
  /\ fst (SendRequest listed_order HttpModel.ReadResponse [] request_1 eof_world)
     = Some (Err (Errorf "could not send the request"
                    (Errorf "could not read response"
                       (Errorf "could not read record header" io_EOF)))).
Proof.
  destruct (SendRequest_reconnect_once listed_order HttpModel.ReadResponse [] []
              request_1 eof_world (fpm_connection []) (mkFCgiClient [] 0)
              (Errorf "could not read response"
                 (Errorf "could not read record header" io_EOF))
              (snd (doRequest listed_order HttpModel.ReadResponse request_1
                      (mkSt (fpm_connection []) (w_dials eof_world) (w_maps eof_world)))))
    as (Hdials & _ & _ & Hretry).
  - reflexivity.
  - vm_compute. reflexivity.
  - split; [exact Hdials|].
    destruct (Hretry (snd (reconnect
                (snd (doRequest listed_order HttpModel.ReadResponse request_1
                        (mkSt (fpm_connection []) (w_dials eof_world)
                              (w_maps eof_world)))))))
      as (_ & _ & _ & Herr & _).
    + vm_compute. reflexivity.
    + refine (proj1 (Herr (Errorf "could not read response"
                             (Errorf "could not read record header" io_EOF))
                          (snd (doRequest listed_order HttpModel.ReadResponse request_1
                                  (snd (reconnect
                                     (snd (doRequest listed_order HttpModel.ReadResponse
                                             request_1
                                             (mkSt (fpm_connection [])
                                                   (w_dials eof_world)
                                                   (w_maps eof_world)))))))) _)).
      vm_compute. reflexivity.
Defined.

(** ** The header codec *)

Lemma byte_of_Z_of_byte (b : byte) : byte_of_Z (Z_of_byte b) = b.
Proof. destruct b; reflexivity. Qed.

Lemma Uint16_sum (hi lo : byte) : Uint16 hi lo = 256 * Z_of_byte hi + Z_of_byte lo.
Proof.
  unfold Uint16.
  pose proof (Z_of_byte_range hi) as Hhi. pose proof (Z_of_byte_range lo) as Hlo.
  assert (Hdisj : Z.land (Z.shiftl (Z_of_byte hi) 8) (Z_of_byte lo) = 0).
  { apply Z.bits_inj'. intros n Hn. rewrite Z.land_spec, Z.bits_0.
    destruct (Z.lt_ge_cases n 8) as [H8|H8].
    - rewrite Z.shiftl_spec_low by lia. reflexivity.
    - rewrite <- (Z.mod_small (Z_of_byte lo) (2 ^ 8)) by (change (2 ^ 8) with 256; lia).
      rewrite Z.mod_pow2_bits_high by lia. apply andb_false_r. }
  rewrite <- Z.lxor_lor by exact Hdisj.
  rewrite <- Z.add_nocarry_lxor by exact Hdisj.
  rewrite Z.shiftl_mul_pow2 by lia. change (2 ^ 8) with 256. lia.
Qed.

Lemma PutUint16_Uint16 (hi lo : byte) : PutUint16 (Uint16 hi lo) = [hi; lo].
Proof.
  unfold PutUint16. rewrite Uint16_sum.
  pose proof (Z_of_byte_range hi) as Hhi. pose proof (Z_of_byte_range lo) as Hlo.
  rewrite Z.shiftr_div_pow2 by lia. change (2 ^ 8) with 256.
  replace ((256 * Z_of_byte hi + Z_of_byte lo) / 256) with (Z_of_byte hi)
    by (apply Z.div_unique with (r := Z_of_byte lo); lia).
  rewrite byte_of_Z_of_byte. f_equal. f_equal.
  rewrite <- (byte_of_Z_of_byte lo) at 2.
  unfold byte_of_Z. replace ((256 * Z_of_byte hi + Z_of_byte lo) mod 256)
    with (Z_of_byte lo mod 256); [reflexivity|].
  rewrite Z.add_comm, Z.mul_comm, Z.mod_add by lia. reflexivity.
Qed.

Lemma decode_header_range (hb : list byte) :
  0 <= ContentLength (decode_header hb) < 65536
  /\ 0 <= PaddingLength (decode_header hb) < 256
  /\ 0 <= RequestId (decode_header hb) < 65536.
Proof.
  destruct hb as [|v [|t [|r1 [|r0 [|c1 [|c0 [|p [|z [|x hb]]]]]]]]];
    cbn [decode_header ContentLength PaddingLength RequestId]; try lia.
  rewrite !Uint16_sum.
  pose proof (Z_of_byte_range r1). pose proof (Z_of_byte_range r0).
  pose proof (Z_of_byte_range c1). pose proof (Z_of_byte_range c0).
  pose proof (Z_of_byte_range p). lia.
Qed.

(** X1. The header codec is a bijection between headers whose fields fit
    their widths and 8-byte strings: decoding an encoded header gives the
    header back, and encoding a decoded 8-byte string gives the bytes
    back. *)
Theorem header_round_trip (h : FCgiRecord) (hb : list byte) :
  valid_header h ->
  length hb = 8%nat ->
  decode_header (encode_header h) = h
  /\ encode_header (decode_header hb) = hb
  /\ valid_header (decode_header hb).
Proof.
  intros (Hv & Ht & Hr & Hc & Hp & Hz) Hlen. split; [|split].
  - rewrite decode_encode_header. unfold uint16.
    rewrite !Z.mod_small by lia. destruct h; reflexivity.
  - destruct hb as [|v [|t [|r1 [|r0 [|c1 [|c0 [|p [|z [|x hb]]]]]]]]];
      try discriminate Hlen.
    unfold encode_header.
    cbn [decode_header Version Type_ RequestId ContentLength PaddingLength Reserved].
    rewrite !PutUint16_Uint16, !byte_of_Z_of_byte. reflexivity.
  - destruct hb as [|v [|t [|r1 [|r0 [|c1 [|c0 [|p [|z [|x hb]]]]]]]]];
      try discriminate Hlen.
    unfold valid_header.
    cbn [decode_header Version Type_ RequestId ContentLength PaddingLength Reserved].
    rewrite !Uint16_sum.
    pose proof (Z_of_byte_range v). pose proof (Z_of_byte_range t).
    pose proof (Z_of_byte_range r1). pose proof (Z_of_byte_range r0).
    pose proof (Z_of_byte_range c1). pose proof (Z_of_byte_range c0).
    pose proof (Z_of_byte_range p). pose proof (Z_of_byte_range z). lia.
Qed.

Lemma header_round_trip_witness :
  valid_header (mkFCgiRecord 1 FCGI_STDOUT 513 300 4 0)
  /\ decode_header (encode_header (mkFCgiRecord 1 FCGI_STDOUT 513 300 4 0))
     = mkFCgiRecord 1 FCGI_STDOUT 513 300 4 0.
Proof.
  assert (Hv : valid_header (mkFCgiRecord 1 FCGI_STDOUT 513 300 4 0))
    by (unfold valid_header, FCGI_STDOUT; cbn; lia).
  split; [exact Hv|].
  exact (proj1 (header_round_trip (mkFCgiRecord 1 FCGI_STDOUT 513 300 4 0)
                  (replicate 8 x00) Hv eq_refl)).
Defined.

(** ** Writing records: failures and the BEGIN_REQUEST record *)



(** A closed socket refuses the first write of a record. *)
Lemma writeRecord_closed (requestId recordType : Z) (data : list byte) (st : St) :
  closed (Conn (fc st)) = true ->
  writeRecord requestId recordType data st
  = (Err (Errorf "could not write header to connection" net_ErrClosed), st).
Proof.
  intros Hc. unfold writeRecord, mbind, M_bind, bind, wrap, conn_Write.
  rewrite Hc. reflexivity.
Qed.

Lemma begin_request_body_eq :
  [byte_of_Z (Z.shiftr FCGI_RESPONDER 8); byte_of_Z FCGI_RESPONDER;
   byte_of_Z (uint8 FCGI_FLAG_KEEP_ALIVE); x00; x00; x00; x00; x00]
  = begin_request_body.
Proof. vm_compute. reflexivity. Qed.

Lemma sendHeader_ok (r : FCgiRequest) (st : St) :
  can_write 3 st ->
  sendHeader r st
  = (Ok tt, wrote 3 (record_bytes (requestId r) FCGI_BEGIN_REQUEST begin_request_body) st).
Proof.
  intros Hw. unfold sendHeader. cbv zeta. rewrite begin_request_body_eq.
  apply writeRecord_ok. exact Hw.
Qed.

(** X3. sendHeader puts one 16-byte BEGIN_REQUEST record on the wire: the
    header with version 1, type 1, the request id, content length 8 and no
    padding, then role 1 (responder) in two bytes, the keep-alive flag and
    five zero bytes. *)
Theorem sendHeader_begin_request (r : FCgiRequest) (st : St) :
  can_write 3 st ->
  sendHeader r st
  = (Ok tt,
     wrote 3 (encode_header (mkFCgiRecord 1 1 (requestId r) 8 0 0)
                ++ [x00; x01; x01; x00; x00; x00; x00; x00]) st)
  /\ length (encode_header (mkFCgiRecord 1 1 (requestId r) 8 0 0)
               ++ [x00; x01; x01; x00; x00; x00; x00; x00]) = 16%nat.
Proof.
  intros Hw. split; [|reflexivity].
  rewrite sendHeader_ok by exact Hw.
  unfold record_bytes, record_header.
  change (padding_of begin_request_body) with 0.
  change (uint16 (len begin_request_body)) with 8.
  change (replicate (Z.to_nat 0) x00) with (@nil byte).
  rewrite app_nil_r. reflexivity.
Qed.

Lemma sendHeader_begin_request_witness :
  outbound (Conn (fc (snd (sendHeader request_1 (fpm_state [] ∅)))))
  = [x01; x01; x00; x01; x00; x08; x00; x00; x00; x01; x01; x00; x00; x00; x00; x00].
Proof.
  rewrite (proj1 (sendHeader_begin_request request_1 (fpm_state [] ∅)
                    (can_write_open 3 [] ∅))).
  vm_compute. reflexivity.
Defined.

(** ** The request on the wire *)

Lemma sendBody_ok (r : FCgiRequest) (st : St) :
  can_write (3 * (length (stdin_chunks (Body r)) + 1)) st ->
  sendBody r st
  = (Ok tt,
     wrote (3 * (length (stdin_chunks (Body r)) + 1))
           (concat (map (record_bytes (requestId r) FCGI_STDIN)
                        (stdin_chunks (Body r) ++ [[]]))) st).
Proof.
  intros Hw. unfold sendBody, mbind, M_bind, bind.
  destruct (Z.gtb_spec (len (Body r)) 0) as [Hpos|Hzero].
  - unfold stdin_chunks in *.
    rewrite sendBody_loop_ok; [| lia | unfold len; lia
                               | eapply can_write_le; [|exact Hw]; lia].
    rewrite writeRecord_ok
      by (apply can_write_wrote; eapply can_write_le; [|exact Hw]; lia).
    rewrite wrote_wrote, map_app, concat_app. cbn [map concat].
    rewrite app_nil_r. do 2 f_equal. lia.
  - assert (Hnil : stdin_chunks (Body r) = []).
    { unfold stdin_chunks. cbn [sendBody_chunks].
      destruct (Z.ltb_spec 0 (len (Body r))); [lia | reflexivity]. }
    rewrite Hnil in *. unfold ret.
    rewrite writeRecord_ok by exact Hw.
    cbn [app map concat length]. rewrite app_nil_r. reflexivity.
Qed.

Lemma writes_nothing_ret {A : Type} (a : A) : writes_nothing (ret a).
Proof. intros st. split; reflexivity. Qed.

Lemma writes_nothing_throw {A : Type} (e : error) : writes_nothing (@throw A e).
Proof. intros st. split; reflexivity. Qed.

Lemma writes_nothing_panic {A : Type} (msg : string) : writes_nothing (@panic A msg).
Proof. intros st. split; reflexivity. Qed.

Lemma writes_nothing_bind {A B : Type} (m : M A) (k : A -> M B) :
  writes_nothing m -> (forall a, writes_nothing (k a)) -> writes_nothing (bind m k).
Proof.
  intros Hm Hk st. unfold bind. specialize (Hm st).
  destruct (m st) as [[a|e|msg|] st']; cbn [snd] in *; try exact Hm.
  destruct (Hk a st') as [? ?], Hm as [? ?]. split; congruence.
Qed.

Lemma writes_nothing_wrap {A : Type} (msg : string) (m : M A) :
  writes_nothing m -> writes_nothing (wrap msg m).
Proof.
  intros Hm st. unfold wrap. specialize (Hm st).
  destruct (m st) as [[a|e|msg'|] st']; exact Hm.
Qed.

Lemma writes_nothing_binary_Read (n : nat) : writes_nothing (binary_Read n).
Proof.
  intros st. unfold binary_Read. destruct n; [split; reflexivity|].
  destruct (closed (Conn (fc st))); [split; reflexivity|].
  destruct (inbound (Conn (fc st))); [split; reflexivity|].
  destruct (_ <? _)%nat; split; reflexivity.
Qed.

Lemma writes_nothing_read_iteration (req : FCgiRequest) (stdout : list byte) :
  writes_nothing (read_iteration req stdout).
Proof.
  unfold read_iteration, mbind, M_bind.
  apply writes_nothing_bind; [apply writes_nothing_wrap, writes_nothing_binary_Read|].
  intros hb. destruct (negb _); [apply writes_nothing_ret|].
  apply writes_nothing_bind; [apply writes_nothing_wrap, writes_nothing_binary_Read|].
  intros b. apply writes_nothing_bind; [|intros; apply writes_nothing_ret].
  destruct (_ =? _); [|apply writes_nothing_ret].
  destruct (_ <=? _); [apply writes_nothing_ret | apply writes_nothing_panic].
Qed.

Lemma writes_nothing_readRecords (fuel : nat) (req : FCgiRequest) (stdout : list byte) :
  writes_nothing (readRecords fuel req stdout).
Proof.
  revert stdout. induction fuel as [|fuel IH]; intros stdout; cbn [readRecords].
  - intros st. split; reflexivity.
  - apply writes_nothing_bind; [apply writes_nothing_read_iteration|].
    intros [d out]. cbn [fst snd]. destruct d; [apply writes_nothing_ret | apply IH].
Qed.

Lemma writes_nothing_parse_status (resp : HttpResponse) : writes_nothing (parse_status resp).
Proof.
  unfold parse_status. destruct (negb _); [|apply writes_nothing_ret].
  destruct (_ <? _)%nat; [apply writes_nothing_throw|].
  destruct (Atoi _); [apply writes_nothing_throw | apply writes_nothing_ret].
Qed.

Lemma outbound_wrote (k : nat) (bs : list byte) (st : St) :
  outbound (Conn (fc (wrote k bs st))) = outbound (Conn (fc st)) ++ bs.
Proof. reflexivity. Qed.

Section ClientExtras.

Variable range_order : forall V : Type, gmap string V -> list (string * V).
Variable http_ReadResponse : list byte -> error + HttpResponse.

Lemma writes_nothing_readResponse (req : FCgiRequest) :
  writes_nothing (readResponse http_ReadResponse req).
Proof.
  intros st. rewrite readResponse_unfold.
  pose proof (writes_nothing_readRecords (S (length (inbound (Conn (fc st))))) req [] st)
    as Hs.
  destruct (readRecords _ req [] st) as [[stdout|e|msg|] st1]; cbn [snd] in *;
    try exact Hs.
  destruct (http_ReadResponse (preamble ++ stdout)); [exact Hs|].
  destruct (writes_nothing_parse_status h st1) as [? ?], Hs as [? ?].
  split; congruence.
Qed.

(** X4. When its writes succeed, sendParams leaves on the wire one PARAMS
    record per entry of the map it ranges over (the caller's map, with
    CONTENT_LENGTH when the body is not empty), in the order of the range,
    and then one empty PARAMS record of 8 bytes. The payload of an entry
    is 8 + len(key) + len(value) bytes long, and the header says so as
    long as that is at most 65535. If the range visits the entries of the
    map, each once, the records are those of the entries of the map. *)
Theorem sendParams_wire (r : FCgiRequest) (st : St) (m : gmap string string) :
  maps st !! Params r = Some m ->
  can_write (3 * (length (range_order _ (params_sent r m)) + 1)) st ->
  fst (sendParams range_order r st) = Ok tt
  /\ outbound (Conn (fc (snd (sendParams range_order r st))))
     = outbound (Conn (fc st))
         ++ params_records (requestId r) (range_order _ (params_sent r m))
         ++ record_bytes (requestId r) FCGI_PARAMS []
  /\ length (record_bytes (requestId r) FCGI_PARAMS []) = 8%nat
  /\ (forall name value,
        len (param_payload name value) = 8 + strlen name + strlen value
        /\ (8 + strlen name + strlen value <= 65535 ->
            ContentLength (record_header (requestId r) FCGI_PARAMS
                                         (param_payload name value))
            = 8 + strlen name + strlen value))
  /\ ((forall mm : gmap string string, range_order _ mm ≡ₚ map_to_list mm) ->
      NoDup (range_order _ (params_sent r m))
      /\ forall name value,
           (name, value) ∈ range_order _ (params_sent r m)
           <-> params_sent r m !! name = Some value).
Proof.
  intros Hm Hw. rewrite (sendParams_ok range_order r st m Hm Hw). cbn [fst snd].
  split; [reflexivity|]. split; [reflexivity|]. split; [reflexivity|].
  split.
  - intros name value. split; [apply len_param_payload|].
    intros Hle. cbn [ContentLength record_header]. rewrite len_param_payload.
    unfold uint16. apply Z.mod_small.
    unfold strlen in *. lia.
  - intros Hperm. split.
    + rewrite Hperm. apply NoDup_map_to_list.
    + intros name value. rewrite Hperm. apply elem_of_map_to_list.
Qed.

(** X5. On a nil parameter map sendParams with a non-empty body panics on
    the CONTENT_LENGTH assignment before anything is written; with an
    empty body it makes no assignment, ranges over nothing and writes the
    empty PARAMS record alone. *)
Theorem sendParams_nil_map (r : FCgiRequest) (st : St) :
  maps st !! Params r = None ->
  (len (Body r) > 0 ->
   sendParams range_order r st = (Panic "assignment to entry in nil map", st))
  /\ (len (Body r) = 0 -> can_write 3 st ->
      sendParams range_order r st
      = (Ok tt, wrote 3 (record_bytes (requestId r) FCGI_PARAMS []) st)).
Proof.
  intros Hm. unfold sendParams, mbind, M_bind, bind, map_assign, map_range, ret.
  split.
  - intros Hb. destruct (Z.gtb_spec (len (Body r)) 0); [|lia]. rewrite Hm. reflexivity.
  - intros Hb Hw. destruct (Z.gtb_spec (len (Body r)) 0); [lia|]. rewrite Hm.
    cbn [for_each]. unfold ret. apply writeRecord_ok. exact Hw.
Qed.

(** X6. The order on the wire. When the writes of a doRequest succeed the
    connection has received, whatever the response turns out to be, the
    BEGIN_REQUEST record, the PARAMS records and the empty PARAMS record,
    then the STDIN records of the body and the empty STDIN record, in this
    order and nothing else. *)
Theorem doRequest_wire_order (r : FCgiRequest) (st : St) (m : gmap string string) :
  maps st !! Params r = Some m ->
  can_write (3 * (1 + (length (range_order _ (params_sent r m)) + 1)
                  + (length (stdin_chunks (Body r)) + 1))) st ->
  outbound (Conn (fc (snd (doRequest range_order http_ReadResponse r st))))
  = outbound (Conn (fc st))
      ++ record_bytes (requestId r) FCGI_BEGIN_REQUEST begin_request_body
      ++ (params_records (requestId r) (range_order _ (params_sent r m))
            ++ record_bytes (requestId r) FCGI_PARAMS [])
      ++ concat (map (record_bytes (requestId r) FCGI_STDIN)
                     (stdin_chunks (Body r) ++ [[]])).
Proof.
  intros Hm Hw. unfold doRequest, mbind, M_bind, bind, wrap.
  rewrite sendHeader_ok by (eapply can_write_le; [|exact Hw]; lia).
  set (st1 := wrote 3 (record_bytes (requestId r) FCGI_BEGIN_REQUEST begin_request_body) st).
  assert (Hw1 : can_write (3 * (length (range_order _ (params_sent r m)) + 1)
                           + 3 * (length (stdin_chunks (Body r)) + 1)) st1).
  { apply can_write_wrote. eapply can_write_le; [|exact Hw]. lia. }
  rewrite (sendParams_ok range_order r st1 m Hm)
    by (eapply can_write_le; [|exact Hw1]; lia).
  set (st2 := wrote _ _ (set_maps _ st1)).
  assert (Hw2 : can_write (3 * (length (stdin_chunks (Body r)) + 1)) st2).
  { apply (can_write_wrote _ _ _ (set_maps (store_sent r (maps st1)) st1)).
    exact Hw1. }
  rewrite sendBody_ok by exact Hw2.
  subst st2 st1.
  match goal with
  | |- context [readResponse http_ReadResponse r ?s] =>
      pose proof (writes_nothing_readResponse r s) as [Hout _];
      destruct (readResponse http_ReadResponse r s) as [[resp|e|msg|] st']
  end; cbn [snd] in *; rewrite Hout; rewrite !outbound_wrote;
    cbn [set_maps fc]; rewrite outbound_wrote, <- !app_assoc; reflexivity.
Qed.

End ClientExtras.

Lemma sendParams_wire_witness :
  outbound (Conn (fc (snd (sendParams listed_order request_abc post_state))))
  = params_records 1 (listed_order _ (params_sent request_abc
                                        {[ "REQUEST_METHOD" := "POST"%string ]}))
      ++ record_bytes 1 FCGI_PARAMS [].
Proof.
  exact (proj1 (proj2 (sendParams_wire listed_order request_abc post_state
                         {[ "REQUEST_METHOD" := "POST"%string ]} eq_refl
                         (can_write_open _ [] _)))).
Defined.

Lemma sendParams_nil_map_witness :
  sendParams listed_order request_abc (fpm_state [] ∅)
  = (Panic "assignment to entry in nil map", fpm_state [] ∅).
Proof.
  destruct (sendParams_nil_map listed_order request_abc (fpm_state [] ∅)) as [Hp _];
    [apply lookup_empty | apply Hp; reflexivity].
Defined.

Lemma doRequest_wire_order_witness :
  outbound (Conn (fc (snd (doRequest listed_order HttpModel.ReadResponse request_1
                             (fpm_state [] {[ 1%positive := ∅ ]})))))
  = record_bytes 1 FCGI_BEGIN_REQUEST begin_request_body
      ++ record_bytes 1 FCGI_PARAMS [] ++ record_bytes 1 FCGI_STDIN [].
Proof.
  rewrite (doRequest_wire_order listed_order HttpModel.ReadResponse request_1
             (fpm_state [] {[ 1%positive := ∅ ]}) ∅ (lookup_singleton_eq _ _)
             (can_write_open _ [] _)).
  vm_compute. reflexivity.
Defined.

(** ** Reading records back *)

Lemma padding_of_range (d : list byte) : 0 <= padding_of d < 8.
Proof. rewrite padding_of_spec. apply Z.mod_pos_bound. lia. Qed.

Lemma length_record_bytes (id ty : Z) (d : list byte) :
  length (record_bytes id ty d) = (8 + (length d + Z.to_nat (padding_of d)))%nat.
Proof.
  unfold record_bytes. rewrite !length_app, length_encode_header, length_replicate.
  reflexivity.
Qed.

(** One iteration on a record framed as writeRecord frames it. *)
Lemma read_iteration_record (req : FCgiRequest) (ty : Z) (d out rest : list byte)
    (st : St) :
  0 <= requestId req < 65536 ->
  0 <= ty < 256 ->
  len d <= 65528 ->
  closed (Conn (fc st)) = false ->
  inbound (Conn (fc st)) = record_bytes (requestId req) ty d ++ rest ->
  read_iteration req out st
  = (Ok (ty =? FCGI_END_REQUEST, if ty =? FCGI_STDOUT then out ++ d else out),
     consumed (length (record_bytes (requestId req) ty d)) st).
Proof.
  intros Hid Hty Hlen Hc Hin.
  pose proof (padding_of_range d) as Hpad.
  assert (Hd0 : 0 <= len d) by (unfold len; lia).
  set (hb := encode_header (record_header (requestId req) ty d)).
  assert (Hdec : decode_header hb
                 = mkFCgiRecord 1 ty (requestId req) (len d) (padding_of d) 0).
  { subst hb. rewrite decode_encode_header. unfold record_header, uint16.
    cbn [Version Type_ RequestId ContentLength PaddingLength Reserved].
    rewrite (Z.mod_small ty), (Z.mod_small (requestId req)),
      (Z.mod_small (padding_of d)) by lia.
    rewrite Z.mod_mod, (Z.mod_small (len d)) by lia. reflexivity. }
  assert (Hin' : inbound (Conn (fc st))
                 = hb ++ (d ++ replicate (Z.to_nat (padding_of d)) x00 ++ rest)).
  { rewrite Hin. unfold record_bytes. subst hb. rewrite <- !app_assoc. reflexivity. }
  assert (Hn : uint16 (len d + padding_of d) = len d + padding_of d).
  { unfold uint16. apply Z.mod_small. lia. }
  pose proof (read_iteration_matching req out hb
                (d ++ replicate (Z.to_nat (padding_of d)) x00 ++ rest) st Hc Hin'
                (length_encode_header _)) as Hstep.
  rewrite Hdec in Hstep.
  cbn [RequestId ContentLength PaddingLength Type_] in Hstep.
  rewrite Hn in Hstep. rewrite Hstep; clear Hstep.
  - rewrite length_record_bytes.
    replace (Z.to_nat (len d + padding_of d))
      with (length d + Z.to_nat (padding_of d))%nat by (unfold len; lia).
    f_equal.
    destruct (Z.eqb_spec ty FCGI_STDOUT) as [->|Hne]; [|reflexivity].
    destruct (Z.leb_spec (len d) (Z.of_nat (length d + Z.to_nat (padding_of d))))
      as [_|Hbad]; [|unfold len in Hbad; lia].
    change (FCGI_STDOUT =? FCGI_END_REQUEST) with false. do 3 f_equal.
    rewrite app_assoc.
    rewrite take_app_length'
      by (rewrite length_app, length_replicate; reflexivity).
    unfold len. rewrite Nat2Z.id. apply take_app_length.
  - reflexivity.
  - unfold len in *. rewrite !length_app, length_replicate. lia.
Qed.

(** X7. readResponse's loop reads back what writeRecord's framing carries.
    On a stream that holds records of the request in flight (any types but
    END_REQUEST, payloads of at most 65528 bytes), then its END_REQUEST
    record, the loop returns the STDOUT payloads concatenated in arrival
    order, drops the payloads of the other types, and consumes the stream
    up to the end of the END_REQUEST record and no further. *)
Theorem readRecords_reads_back (req : FCgiRequest) (rs : list (Z * list byte))
    (end_body rest out : list byte) (st : St) (fuel : nat) :
  0 <= requestId req < 65536 ->
  Forall readable_record rs ->
  len end_body <= 65528 ->
  closed (Conn (fc st)) = false ->
  inbound (Conn (fc st))
  = stream_of (requestId req) rs
      ++ record_bytes (requestId req) FCGI_END_REQUEST end_body ++ rest ->
  (length rs < fuel)%nat ->
  readRecords fuel req out st
  = (Ok (out ++ stdout_payloads rs),
     consumed (length (stream_of (requestId req) rs
                         ++ record_bytes (requestId req) FCGI_END_REQUEST end_body)) st)
  /\ inbound (Conn (fc (snd (readRecords fuel req out st)))) = rest.
Proof.
  intros Hid Hrs Hend.
  assert (Hmain : forall fuel out st,
    closed (Conn (fc st)) = false ->
    inbound (Conn (fc st))
    = stream_of (requestId req) rs
        ++ record_bytes (requestId req) FCGI_END_REQUEST end_body ++ rest ->
    (length rs < fuel)%nat ->
    readRecords fuel req out st
    = (Ok (out ++ stdout_payloads rs),
       consumed (length (stream_of (requestId req) rs
                           ++ record_bytes (requestId req) FCGI_END_REQUEST end_body))
                st)).
  { clear st fuel out.
    induction Hrs as [|[ty d] rs (Hty & Hne & Hlen) Hrs IH]; intros fuel out st Hc Hin Hf.
    - destruct fuel as [|fuel]; [cbn in Hf; lia|].
      unfold stream_of, stdout_payloads in *. cbn [map concat app] in *.
      cbn [readRecords]. unfold bind.
      rewrite (read_iteration_record req FCGI_END_REQUEST end_body out rest st Hid)
        by (assumption || (unfold FCGI_END_REQUEST; lia)).
      change (FCGI_END_REQUEST =? FCGI_END_REQUEST) with true.
      change (FCGI_END_REQUEST =? FCGI_STDOUT) with false.
      cbn [fst snd]. unfold ret. rewrite app_nil_r. reflexivity.
    - destruct fuel as [|fuel]; [cbn in Hf; lia|].
      cbn [fst snd] in Hty, Hne, Hlen.
      assert (Hin1 : inbound (Conn (fc st))
                     = record_bytes (requestId req) ty d
                         ++ (stream_of (requestId req) rs
                               ++ record_bytes (requestId req) FCGI_END_REQUEST end_body
                               ++ rest)).
      { rewrite Hin. unfold stream_of. cbn [map concat].
        rewrite <- app_assoc. reflexivity. }
      cbn [readRecords]. unfold bind.
      rewrite (read_iteration_record req ty d out _ st Hid Hty Hlen Hc Hin1).
      destruct (Z.eqb_spec ty FCGI_END_REQUEST) as [Heq|_]; [contradiction|].
      cbn [fst snd].
      rewrite IH.
      + rewrite consumed_consumed. f_equal.
        * f_equal. unfold stdout_payloads. cbn [map concat].
          destruct (ty =? FCGI_STDOUT); [rewrite <- app_assoc|]; reflexivity.
        * f_equal. unfold stream_of. cbn [map concat].
          rewrite !length_app. lia.
      + rewrite closed_consumed. exact Hc.
      + rewrite inbound_consumed, Hin1. apply drop_app_length.
      + cbn [length] in Hf. lia. }
  intros Hc Hin Hf. rewrite (Hmain fuel out st Hc Hin Hf). split; [reflexivity|].
  cbn [snd]. rewrite inbound_consumed, Hin, app_assoc. apply drop_app_length.
Qed.

Lemma readRecords_reads_back_witness :
  readRecords 3 request_1 [] hello_state
  = (Ok [x68; x69],
     consumed (length (stream_of 1 hello_records
                         ++ record_bytes 1 FCGI_END_REQUEST (replicate 8 x00)))
              hello_state)
  /\ inbound (Conn (fc (snd (readRecords 3 request_1 [] hello_state)))) = [x7a].
Proof.
  apply (readRecords_reads_back request_1 hello_records (replicate 8 x00) [x7a] []
           hello_state 3).
  - split; vm_compute; [intro Hx; discriminate Hx | reflexivity].
  - constructor; [|constructor; [|constructor]];
      (split; [split|split]; vm_compute; try reflexivity; intro Hx; discriminate Hx).
  - vm_compute. intro Hx. discriminate Hx.
  - reflexivity.
  - reflexivity.
  - vm_compute. lia.
Defined.

(** X8. A STDOUT record of the request in flight whose content length and
    padding add up to 65536 or more makes readResponse panic: it reads
    their sum modulo 65536 and then slices the content length out of that
    shorter buffer. A payload of 65529 to 65535 bytes framed by
    writeRecord is such a record. *)
Theorem read_iteration_stdout_wrap_panics (req : FCgiRequest)
    (stdout hb rest : list byte) (st : St) :
  closed (Conn (fc st)) = false ->
  inbound (Conn (fc st)) = hb ++ rest ->
  length hb = 8%nat ->
  requestId req = RequestId (decode_header hb) ->
  Type_ (decode_header hb) = FCGI_STDOUT ->
  65536 <= ContentLength (decode_header hb) + PaddingLength (decode_header hb) ->
  ContentLength (decode_header hb) + PaddingLength (decode_header hb) - 65536
    <= len rest ->
  fst (read_iteration req stdout st) = Panic "slice bounds out of range"
  /\ (forall id ty (d : list byte),
        65528 < len d <= 65535 ->
        ContentLength (record_header id ty d) + PaddingLength (record_header id ty d)
        = 65536).
Proof.
  intros Hc Hin Hlen Hid Hty Hbig Hrest.
  destruct (decode_header_range hb) as (Hcl & Hpl & _).
  assert (Hn : uint16 (ContentLength (decode_header hb) + PaddingLength (decode_header hb))
               = ContentLength (decode_header hb) + PaddingLength (decode_header hb)
                 - 65536).
  { unfold uint16. symmetry.
    apply Z.mod_unique with (q := 1); lia. }
  split.
  - rewrite (read_iteration_matching req stdout hb rest st Hc Hin Hlen Hid)
      by (rewrite Hn; exact Hrest).
    cbn [fst]. rewrite Hty, Hn. change (FCGI_STDOUT =? FCGI_STDOUT) with true.
    destruct (Z.leb_spec (ContentLength (decode_header hb))
                (Z.of_nat (Z.to_nat (ContentLength (decode_header hb)
                                     + PaddingLength (decode_header hb) - 65536))));
      [lia | reflexivity].
  - intros id ty d Hd. cbn [ContentLength PaddingLength record_header].
    rewrite padding_of_spec. unfold uint16. rewrite Z.mod_small by lia.
    assert (H8 : (- len d) mod 8 = 65536 - len d).
    { symmetry. apply Z.mod_unique with (q := -8192); lia. }
    lia.
Qed.

Lemma read_iteration_stdout_wrap_panics_witness :
  fst (read_iteration request_1 [] (fpm_state (wrapping_stdout_header ++ []) ∅))
  = Panic "slice bounds out of range".
Proof.
  refine (proj1 (read_iteration_stdout_wrap_panics request_1 [] wrapping_stdout_header
                   [] (fpm_state (wrapping_stdout_header ++ []) ∅) _ _ _ _ _ _ _));
    try reflexivity; vm_compute; discriminate.
Defined.

(** ** The pool and the client *)

(** X12. findConnection hands out the head of a non-empty pool at once,
    without a log line and without waiting for an event; on an empty pool
    it writes one log line for each second that passes and returns with
    the first connection that is put back. *)
Theorem findConnection_first_in_first_out :
  (forall conn rest logged evs,
     findConnection evs (mkFCgiClient (conn :: rest) logged)
     = (Some conn, mkFCgiClient rest logged, evs))
  /\ (forall n conn evs logged,
        findConnection (replicate n TimerFired ++ Released conn :: evs)
                       (mkFCgiClient [] logged)
        = (Some conn, mkFCgiClient [] (logged + n), evs)).
Proof.
  split.
  - intros conn rest logged evs. rewrite findConnection_unfold. reflexivity.
  - intros n. induction n as [|n IH]; intros conn evs logged.
    + cbn [replicate app]. rewrite findConnection_unfold. cbn [Pool].
      rewrite Nat.add_0_r. reflexivity.
    + cbn [replicate app]. rewrite findConnection_unfold. cbn [Pool busy_logged].
      rewrite IH. do 3 f_equal. lia.
Qed.

Section ClientRecovery.

Variable range_order : forall V : Type, gmap string V -> list (string * V).
Variable http_ReadResponse : list byte -> error + HttpResponse.

(** X9. On a stream that ends before a whole header, readResponse fails
    with ["could not read record header"]: the cause is EOF when nothing
    is left to read and an unexpected EOF when one to seven bytes are, and
    those bytes are consumed. *)
Theorem readResponse_short_stream (req : FCgiRequest) (st : St) :
  closed (Conn (fc st)) = false ->
  (length (inbound (Conn (fc st))) < 8)%nat ->
  readResponse http_ReadResponse req st
  = (Err (Errorf "could not read record header"
            (match inbound (Conn (fc st)) with
             | [] => io_EOF
             | _ => io_ErrUnexpectedEOF
             end)),
     consumed (length (inbound (Conn (fc st)))) st).
Proof.
  destruct st as [[[i o w c] sp n] ds ms]. cbn [fc Conn closed inbound].
  intros -> Hlen. rewrite readResponse_unfold. cbn [readRecords].
  unfold bind, read_iteration, mbind, M_bind, bind, wrap, binary_Read, consumed, set_Conn.
  cbn [fc Conn closed inbound outbound writes_left socketPath id dials maps].
  destruct i as [|b i]; [reflexivity|].
  destruct (Nat.ltb_spec (length (b :: i)) 8) as [_|Hge]; [|lia].
  rewrite drop_all. reflexivity.
Qed.

(** X10. A reconnect whose dial fails returns the dial error under
    ["could not reconnect"] and leaves the connection with its old socket,
    closed: every doRequest on it fails on the first write, before anything
    is sent, with the closed-socket error. *)
Theorem reconnect_failure_leaves_closed_socket (st : St) :
  (forall sock ds, dials st <> Some sock :: ds) ->
  fst (reconnect st) = Err (Errorf "could not reconnect" net_ErrDial)
  /\ closed (Conn (fc (snd (reconnect st)))) = true
  /\ outbound (Conn (fc (snd (reconnect st)))) = outbound (Conn (fc st))
  /\ forall r,
       doRequest range_order http_ReadResponse r (snd (reconnect st))
       = (Err (Errorf "could not send header"
                 (Errorf "could not write header to connection" net_ErrClosed)),
          snd (reconnect st)).
Proof.
  intros Hdial.
  assert (Hc : closed (Conn (fc (snd (reconnect st)))) = true
               /\ fst (reconnect st) = Err (Errorf "could not reconnect" net_ErrDial)
               /\ outbound (Conn (fc (snd (reconnect st)))) = outbound (Conn (fc st))).
  { unfold reconnect. destruct st as [[c sp k] ds ms]. cbn [dials set_Conn fc Conn] in *.
    destruct ds as [|[sock|] ds]; [| exfalso; eapply Hdial; reflexivity |];
      repeat split; reflexivity. }
  destruct Hc as (Hc & Herr & Hout).
  split; [exact Herr|]. split; [exact Hc|]. split; [exact Hout|].
  intros r. unfold doRequest, mbind, M_bind, bind, wrap, sendHeader. cbv zeta.
  rewrite writeRecord_closed by exact Hc. reflexivity.
Qed.



End ClientRecovery.

Lemma readResponse_short_stream_witness :
  readResponse HttpModel.ReadResponse request_1 (fpm_state [x01; x06; x00] ∅)
  = (Err (Errorf "could not read record header" io_ErrUnexpectedEOF), fpm_state [] ∅).
Proof.
  exact (readResponse_short_stream HttpModel.ReadResponse request_1
           (fpm_state [x01; x06; x00] ∅) eq_refl (le_n_S _ _ (le_n_S _ _ (le_n_S _ _
              (le_n_S _ _ (Nat.le_0_l _)))))).
Defined.

Lemma reconnect_failure_leaves_closed_socket_witness :
  doRequest listed_order HttpModel.ReadResponse request_1
    (snd (reconnect (fpm_state [] ∅)))
  = (Err (Errorf "could not send header"
            (Errorf "could not write header to connection" net_ErrClosed)),
     snd (reconnect (fpm_state [] ∅))).
Proof.
  refine (proj2 (proj2 (proj2
    (reconnect_failure_leaves_closed_socket listed_order HttpModel.ReadResponse
       (fpm_state [] ∅) _))) request_1).
  intros sock ds Hx. discriminate Hx.
Defined.


(** ** The adapter's parameter map *)

Lemma to_lower_to_upper (c : ascii) :
  Adapter.to_lower (Adapter.to_upper c) = Adapter.to_lower c.
Proof. destruct c as [[] [] [] [] [] [] [] []]; reflexivity. Qed.

Lemma ToLower_ToUpper (s : string) :
  Adapter.ToLower (Adapter.ToUpper s) = Adapter.ToLower s.
Proof.
  induction s as [|c s IH]; [reflexivity|].
  cbn [Adapter.ToUpper Adapter.ToLower]. rewrite to_lower_to_upper, IH. reflexivity.
Qed.

Section AdapterProperties.

Variable range_order : forall V : Type, gmap string V -> list (string * V).
Variable config : Adapter.Config.

Lemma build_params_fold (request : Adapter.HttpRequest) :
  Adapter.build_params range_order config request
  = fold_left (fun params '(name, headers) => fold_left (propagate name) headers params)
              (range_order _ (Adapter.ReqHeader request))
              (base_params config request).
Proof. reflexivity. Qed.

(** An invariant of the two loops of Call. *)
Lemma build_params_invariant (P : gmap string string -> Prop)
    (request : Adapter.HttpRequest) :
  P (base_params config request) ->
  (forall params name header,
     P params ->
     Adapter.protectedHeadersInbound !! Adapter.ToLower name = None ->
     P (<[("HTTP_" ++ Adapter.ToUpper name)%string := header]> params)) ->
  P (Adapter.build_params range_order config request).
Proof.
  intros Hbase Hstep. rewrite build_params_fold.
  generalize (base_params config request) Hbase.
  induction (range_order _ (Adapter.ReqHeader request)) as [|[name headers] l IH];
    intros params Hp; cbn [fold_left]; [exact Hp|].
  apply IH. clear IH. revert params Hp.
  induction headers as [|header headers IH]; intros params Hp; cbn [fold_left];
    [exact Hp|].
  apply IH. unfold propagate.
  destruct (Adapter.protectedHeadersInbound !! Adapter.ToLower name) eqn:Hprot;
    [exact Hp | apply Hstep; assumption].
Qed.

Lemma base_params_lookup (request : Adapter.HttpRequest) :
  base_params config request !! "SCRIPT_FILENAME" = Some (Adapter.IndexFile config)
  /\ base_params config request !! "SERVER_SOFTWARE" = Some "gophpfpm/1.0.0"%string
  /\ base_params config request !! "SERVER_NAME" = Some (Adapter.Host request)
  /\ base_params config request !! "SERVER_PORT" = Some (Itoa (Adapter.Port config))
  /\ base_params config request !! "REQUEST_URI" = Some (Adapter.RequestURI request)
  /\ base_params config request !! "QUERY_STRING" = Some (Adapter.QueryEncoded request)
  /\ base_params config request !! "REQUEST_METHOD" = Some (Adapter.Method request)
  /\ base_params config request !! "CONTENT_TYPE"
     = Some (Header_Get (Adapter.ReqHeader request) "Content-Type").
Proof.
  unfold base_params.
  repeat split;
    repeat (rewrite lookup_insert_ne by discriminate); apply lookup_insert_eq.
Qed.

(** X13. Whatever headers the request carries, the map Call builds holds
    the eight CGI entries with the values Call gave them: the header
    entries all have keys that start with [HTTP_] and never replace
    one. *)
Theorem build_params_base_entries (request : Adapter.HttpRequest) :
  let params := Adapter.build_params range_order config request in
  params !! "SCRIPT_FILENAME" = Some (Adapter.IndexFile config)
  /\ params !! "SERVER_SOFTWARE" = Some "gophpfpm/1.0.0"%string
  /\ params !! "SERVER_NAME" = Some (Adapter.Host request)
  /\ params !! "SERVER_PORT" = Some (Itoa (Adapter.Port config))
  /\ params !! "REQUEST_URI" = Some (Adapter.RequestURI request)
  /\ params !! "QUERY_STRING" = Some (Adapter.QueryEncoded request)
  /\ params !! "REQUEST_METHOD" = Some (Adapter.Method request)
  /\ params !! "CONTENT_TYPE"
     = Some (Header_Get (Adapter.ReqHeader request) "Content-Type")
  /\ params !! "CONTENT_LENGTH" = None.
Proof.
  cbv zeta.
  destruct (base_params_lookup request) as (H1 & H2 & H3 & H4 & H5 & H6 & H7 & H8).
  assert (Hkeep : forall k o,
    (forall s, ("HTTP_" ++ s)%string <> k) ->
    base_params config request !! k = o ->
    Adapter.build_params range_order config request !! k = o).
  { intros k o Hk Hbase.
    apply (build_params_invariant (fun params => params !! k = o)); [exact Hbase|].
    intros params name header Hp _. rewrite lookup_insert_ne by apply Hk. exact Hp. }
  repeat split; apply Hkeep; try assumption; try (intros s Hs; discriminate Hs).
  unfold base_params.
  repeat (rewrite lookup_insert_ne by discriminate). apply lookup_empty.
Qed.

(** X14. The protected inbound headers are never forwarded: however the
    header names are spelled, the map Call builds has no
    [HTTP_CONTENT-TYPE] and no [HTTP_CONTENT-LENGTH] entry. *)
Theorem build_params_protected_headers (request : Adapter.HttpRequest) :
  Adapter.build_params range_order config request !! "HTTP_CONTENT-TYPE" = None
  /\ Adapter.build_params range_order config request !! "HTTP_CONTENT-LENGTH" = None.
Proof.
  assert (Hnone : forall upper lower,
    Adapter.ToLower upper = lower ->
    Adapter.protectedHeadersInbound !! lower = Some true ->
    base_params config request !! ("HTTP_" ++ upper)%string = None ->
    Adapter.build_params range_order config request !! ("HTTP_" ++ upper)%string = None).
  { intros upper lower Hlow Hprot Hbase.
    apply (build_params_invariant
             (fun params => params !! ("HTTP_" ++ upper)%string = None));
      [exact Hbase|].
    intros params name header Hp Hfree. rewrite lookup_insert_ne; [exact Hp|].
    intros Heq. injection Heq as Heq. change (Adapter.ToUpper name = upper) in Heq.
    rewrite <- Hlow, <- Heq, ToLower_ToUpper, Hfree in Hprot. discriminate Hprot. }
  split.
  - apply (Hnone "CONTENT-TYPE"%string "content-type"%string); [reflexivity| |].
    + unfold Adapter.protectedHeadersInbound. apply lookup_insert_eq.
    + unfold base_params.
      repeat (rewrite lookup_insert_ne by discriminate). apply lookup_empty.
  - apply (Hnone "CONTENT-LENGTH"%string "content-length"%string); [reflexivity| |].
    + unfold Adapter.protectedHeadersInbound.
      rewrite lookup_insert_ne by discriminate. apply lookup_insert_eq.
    + unfold base_params.
      repeat (rewrite lookup_insert_ne by discriminate). apply lookup_empty.
Qed.

Lemma propagate_provenance (name : string) (headers : list string)
    (params : gmap string string) (k value : string) :
  fold_left (propagate name) headers params !! k = Some value ->
  params !! k = Some value
  \/ (value ∈ headers /\ k = ("HTTP_" ++ Adapter.ToUpper name)%string).
Proof.
  revert params. induction headers as [|header headers IH]; intros params Hk;
    cbn [fold_left] in Hk; [left; exact Hk|].
  destruct (IH _ Hk) as [Hp|[Hin Heq]].
  - unfold propagate in Hp.
    destruct (Adapter.protectedHeadersInbound !! Adapter.ToLower name);
      [left; exact Hp|].
    destruct (decide (("HTTP_" ++ Adapter.ToUpper name)%string = k)) as [<-|Hne].
    + rewrite lookup_insert_eq in Hp. injection Hp as <-.
      right. split; [apply elem_of_cons; left; reflexivity | reflexivity].
    + rewrite lookup_insert_ne in Hp by exact Hne. left. exact Hp.
  - right. split; [apply elem_of_cons; right; exact Hin | exact Heq].
Qed.

Lemma propagate_keeps (name : string) (headers : list string)
    (params : gmap string string) (k : string) :
  is_Some (params !! k) -> is_Some (fold_left (propagate name) headers params !! k).
Proof.
  revert params. induction headers as [|header headers IH]; intros params Hk;
    cbn [fold_left]; [exact Hk|].
  apply IH. unfold propagate.
  destruct (Adapter.protectedHeadersInbound !! Adapter.ToLower name); [exact Hk|].
  destruct (decide (("HTTP_" ++ Adapter.ToUpper name)%string = k)) as [<-|Hne].
  - rewrite lookup_insert_eq. eauto.
  - rewrite lookup_insert_ne by exact Hne. exact Hk.
Qed.

Lemma headers_provenance (l : list (string * list string))
    (params : gmap string string) (k value : string) :
  fold_left (fun params '(name, headers) => fold_left (propagate name) headers params)
            l params !! k = Some value ->
  params !! k = Some value
  \/ exists name values,
       (name, values) ∈ l /\ value ∈ values
       /\ k = ("HTTP_" ++ Adapter.ToUpper name)%string.
Proof.
  revert params. induction l as [|[name headers] l IH]; intros params Hk;
    cbn [fold_left] in Hk; [left; exact Hk|].
  destruct (IH _ Hk) as [Hp|(name' & values & Hin & Hv & Heq)].
  - destruct (propagate_provenance _ _ _ _ _ Hp) as [Hp'|[Hv Heq]]; [left; exact Hp'|].
    right. exists name, headers. split; [apply elem_of_cons; left; reflexivity|].
    split; assumption.
  - right. exists name', values. split; [apply elem_of_cons; right; exact Hin|].
    split; assumption.
Qed.

Lemma headers_keep (l : list (string * list string)) (params : gmap string string)
    (k : string) :
  is_Some (params !! k) ->
  is_Some (fold_left (fun params '(name, headers) =>
                        fold_left (propagate name) headers params) l params !! k).
Proof.
  revert params. induction l as [|[name headers] l IH]; intros params Hk;
    cbn [fold_left]; [exact Hk|].
  apply IH, propagate_keeps, Hk.
Qed.

Lemma headers_presence (l : list (string * list string)) (params : gmap string string)
    (name v : string) (vs : list string) :
  (name, v :: vs) ∈ l ->
  Adapter.protectedHeadersInbound !! Adapter.ToLower name = None ->
  is_Some (fold_left (fun params '(name, headers) =>
                        fold_left (propagate name) headers params) l params
           !! ("HTTP_" ++ Adapter.ToUpper name)%string).
Proof.
  intros Hin Hfree. revert params.
  induction l as [|[name' headers] l IH]; intros params;
    [apply elem_of_nil in Hin; contradiction|].
  cbn [fold_left]. apply elem_of_cons in Hin. destruct Hin as [[= <- <-]|Hin].
  - apply headers_keep. cbn [fold_left]. apply propagate_keeps.
    unfold propagate. rewrite Hfree, lookup_insert_eq. eauto.
  - apply IH. exact Hin.
Qed.

(** X15. Header propagation. If the range over the request headers visits
    its entries, every header that is not protected and has a value gets
    an [HTTP_] entry under its uppercased name, and each [HTTP_] entry of
    the map holds a value of a request header with that uppercased
    name. *)
Theorem build_params_propagates_headers (request : Adapter.HttpRequest) :
  (forall mm : gmap string (list string), range_order _ mm ≡ₚ map_to_list mm) ->
  (forall name v vs,
     Adapter.ReqHeader request !! name = Some (v :: vs) ->
     Adapter.protectedHeadersInbound !! Adapter.ToLower name = None ->
     is_Some (Adapter.build_params range_order config request
              !! ("HTTP_" ++ Adapter.ToUpper name)%string))
  /\ (forall upper value,
        Adapter.build_params range_order config request !! ("HTTP_" ++ upper)%string
        = Some value ->
        exists name values,
          Adapter.ReqHeader request !! name = Some values
          /\ value ∈ values /\ Adapter.ToUpper name = upper).
Proof.
  intros Hperm. rewrite build_params_fold. split.
  - intros name v vs Hname Hfree. apply headers_presence with (v := v) (vs := vs);
      [|exact Hfree].
    rewrite Hperm. apply elem_of_map_to_list. exact Hname.
  - intros upper value Hk.
    destruct (headers_provenance _ _ _ _ Hk) as [Hbase|(name & values & Hin & Hv & Heq)].
    + exfalso. unfold base_params in Hbase.
      repeat (rewrite lookup_insert_ne in Hbase by discriminate).
      rewrite lookup_empty in Hbase. discriminate Hbase.
    + exists name, values. rewrite Hperm in Hin. apply elem_of_map_to_list in Hin.
      split; [exact Hin|]. split; [exact Hv|].
      injection Heq as Heq. symmetry. exact Heq.
Qed.

End AdapterProperties.

Lemma listed_order_perm (V : Type) (m : gmap string V) :
  listed_order V m ≡ₚ map_to_list m.
Proof. reflexivity. Qed.

Lemma build_params_propagates_headers_witness :
  is_Some (Adapter.build_params listed_order example_config example_request
           !! "HTTP_ACCEPT").
Proof.
  refine (proj1 (build_params_propagates_headers listed_order example_config
                   example_request (listed_order_perm _))
                "Accept"%string "text/html"%string ["application/json"%string] _ _).
  - vm_compute. reflexivity.
  - vm_compute. reflexivity.
Defined.

(** ** The parameter map across a call *)

Lemma params_sent_idem (r : FCgiRequest) (m : gmap string string) :
  params_sent r (params_sent r m) = params_sent r m.
Proof.
  unfold params_sent. destruct (len (Body r) >? 0); [|reflexivity].
  apply insert_insert_eq.
Qed.

Lemma store_sent_idem (r : FCgiRequest) (ms : gmap loc (gmap string string)) :
  store_sent r (store_sent r ms) = store_sent r ms.
Proof.
  unfold store_sent. destruct (ms !! Params r) as [m|] eqn:Hm.
  - rewrite lookup_insert_eq, params_sent_idem. apply insert_insert_eq.
  - rewrite Hm. reflexivity.
Qed.

Lemma store_sent_other (r : FCgiRequest) (ms : gmap loc (gmap string string)) (p : loc) :
  p <> Params r -> store_sent r ms !! p = ms !! p.
Proof.
  intros Hp. unfold store_sent. destruct (ms !! Params r); [|reflexivity].
  apply lookup_insert_ne. congruence.
Qed.

Section CallProperties.

Variable range_order : forall V : Type, gmap string V -> list (string * V).
Variable http_ReadResponse : list byte -> error + HttpResponse.
Variable config : Adapter.Config.

Lemma sendParams_store (r : FCgiRequest) (st : St) :
  maps (snd (sendParams range_order r st)) = store_sent r (maps st).
Proof.
  rewrite sendParams_maps. unfold store_sent, params_sent.
  destruct (len (Body r) >? 0); [reflexivity|].
  destruct (maps st !! Params r) as [m|] eqn:Hm; [|reflexivity].
  symmetry. apply insert_id. exact Hm.
Qed.

Lemma doRequest_unfold (r : FCgiRequest) (st : St) :
  doRequest range_order http_ReadResponse r st
  = match sendHeader r st with
    | (Ok _, st1) => after_header range_order http_ReadResponse r st1
    | (Err e, st1) => (Err (Errorf "could not send header" e), st1)
    | (Panic msg, st1) => (Panic msg, st1)
    | (OutOfFuel, st1) => (OutOfFuel, st1)
    end.
Proof.
  unfold doRequest, after_header, mbind, M_bind.
  unfold bind at 1, wrap at 1.
  destruct (sendHeader r st) as [[[]|e|msg|] st1]; reflexivity.
Qed.

(** After the header, a doRequest leaves the store as sendParams does. *)
Lemma after_header_store (r : FCgiRequest) (st : St) :
  maps (snd (after_header range_order http_ReadResponse r st)) = store_sent r (maps st).
Proof.
  unfold after_header. unfold bind at 1, wrap at 1.
  pose proof (sendParams_store r st) as Hs.
  destruct (sendParams range_order r st) as [[[]|e|msg|] st1]; cbn [snd] in *;
    try exact Hs.
  rewrite <- Hs.
  assert (Htail : socket_only
            (bind (wrap "could not send body" (sendBody r))
                  (fun _ => wrap "could not read response"
                                 (readResponse http_ReadResponse r)))).
  { apply socket_only_bind; [apply socket_only_wrap, socket_only_sendBody|].
    intros _. apply socket_only_wrap, socket_only_readResponse. }
  apply (Htail st1).
Qed.

Lemma doRequest_store (r : FCgiRequest) (st : St) :
  (maps (snd (doRequest range_order http_ReadResponse r st)) = maps st
   \/ maps (snd (doRequest range_order http_ReadResponse r st)) = store_sent r (maps st))
  /\ (can_write 3 st ->
      maps (snd (doRequest range_order http_ReadResponse r st)) = store_sent r (maps st)).
Proof.
  rewrite doRequest_unfold. split.
  - destruct (socket_only_sendHeader r st) as (_ & Hm & _).
    destruct (sendHeader r st) as [[[]|e|msg|] st1]; cbn [snd] in *; auto.
    right. rewrite <- Hm. apply after_header_store.
  - intros Hw. rewrite sendHeader_ok by exact Hw.
    rewrite after_header_store. reflexivity.
Qed.

Lemma SendRequest_held_store (r : FCgiRequest) (st : St) :
  (maps (snd (SendRequest_held range_order http_ReadResponse r st)) = maps st
   \/ maps (snd (SendRequest_held range_order http_ReadResponse r st))
      = store_sent r (maps st))
  /\ (can_write 3 st ->
      maps (snd (SendRequest_held range_order http_ReadResponse r st))
      = store_sent r (maps st)).
Proof.
  unfold SendRequest_held.
  destruct (doRequest_store r st) as [H1 H1w].
  destruct (doRequest range_order http_ReadResponse r st) as [[resp|e|msg|] st1];
    cbn [snd] in *; try (split; assumption).
  destruct (reconnect_spec st1) as (_ & _ & _ & Hm2 & _).
  assert (Hafter : forall st',
    maps st' = maps st1 \/ maps st' = store_sent r (maps st1) ->
    (maps st' = maps st \/ maps st' = store_sent r (maps st))
    /\ (can_write 3 st -> maps st' = store_sent r (maps st))).
  { intros st' Hst'. split.
    - destruct Hst' as [->| ->]; [exact H1|].
      destruct H1 as [->| ->]; [right; reflexivity|].
      right. apply store_sent_idem.
    - intros Hw. specialize (H1w Hw).
      destruct Hst' as [->| ->]; [exact H1w|].
      rewrite H1w. apply store_sent_idem. }
  destruct (reconnect st1) as [[[]|e'|msg|] st2]; cbn [snd] in *;
    try (apply Hafter; left; exact Hm2).
  destruct (doRequest_store r st2) as [H3 _]. rewrite Hm2 in H3.
  destruct (doRequest range_order http_ReadResponse r st2) as [[resp|e2|msg|] st3];
    cbn [snd] in *; apply Hafter; exact H3.
Qed.

(** The store after Call, by cases on the body and on the acquisition. *)
Lemma Call_store (evs : list pool_event) (token : byte * byte)
    (request : Adapter.HttpRequest) (w : World) :
  let call := Adapter.Call range_order http_ReadResponse config evs token request w in
  let params := fresh (dom (w_maps w)) in
  let built := <[params := Adapter.build_params range_order config request]> (w_maps w) in
  match Adapter.ReqBody request with
  | inl _ => w_maps (snd call) = w_maps w
  | inr body =>
      let r := if len body >? 0
               then mkFCgiRequest params body (Uint16 (fst token) (snd token))
               else mkFCgiRequest params [] (Uint16 (fst token) (snd token)) in
      (w_maps (snd call) = built \/ w_maps (snd call) = store_sent r built)
      /\ (forall conn cl evs',
            findConnection evs (client w) = (Some conn, cl, evs') ->
            can_write 3 (mkSt conn (w_dials w) built) ->
            w_maps (snd call) = store_sent r built)
  end.
Proof.
  cbv zeta. unfold Adapter.Call.
  destruct (Adapter.ReqBody request) as [err|body]; [reflexivity|].
  cbv zeta. unfold NewRequest. cbn [Params requestId].
  set (r0 := if len body >? 0 then _ else _).
  set (built := <[fresh (dom (w_maps w)) := _]> (w_maps w)).
  assert (Hcall : forall p : option (res HttpResponse) * World,
    w_maps (snd (let (o, w') := p in
                 match o with
                 | Some (Ok fpmResp) =>
                     (Some (Ok (Adapter.mkResponseData
                                  (StatusCode fpmResp) (Header fpmResp)
                                  (RespBody fpmResp)
                                  (Header_Get (Header fpmResp) "X-App-Route"))), w')
                 | Some (Err err) => (Some (Err (Errorf "could not call FPM" err)), w')
                 | Some (Panic msg) => (Some (Panic msg), w')
                 | Some OutOfFuel => (Some OutOfFuel, w')
                 | None => (None, w')
                 end)) = w_maps (snd p)).
  { intros [[[resp|e|msg|]|] w']; reflexivity. }
  rewrite Hcall. clear Hcall.
  unfold SendRequest. cbn [client w_dials w_maps].
  destruct (findConnection evs (client w)) as [[[conn|] cl] evs'] eqn:Hfind.
  - destruct (SendRequest_held_store r0 (mkSt conn (w_dials w) built)) as [Hs Hsw].
    destruct (SendRequest_held range_order http_ReadResponse r0
                (mkSt conn (w_dials w) built)) as [result st'].
    cbn [snd maps w_maps] in *. split; [exact Hs|].
    intros conn0 cl0 evs0 [= <- <- <-] Hw. apply Hsw. exact Hw.
  - cbn [snd w_maps]. split; [left; reflexivity|]. intros ? ? ? [=].
Qed.

(** X16. Call touches no map but its own: it allocates the parameter map
    at a location the store does not use, and every map that was in the
    store before the call is the same after it, whether the call returned
    a response, failed, retried or is still waiting for a connection. *)
Theorem Call_leaves_other_maps (evs : list pool_event) (token : byte * byte)
    (request : Adapter.HttpRequest) (w : World) (p : loc) :
  is_Some (w_maps w !! p) ->
  p <> fresh (dom (w_maps w))
  /\ w_maps (snd (Adapter.Call range_order http_ReadResponse config evs token request w))
     !! p = w_maps w !! p.
Proof.
  intros Hp.
  assert (Hne : p <> fresh (dom (w_maps w))).
  { intros ->. apply elem_of_dom in Hp. exact (is_fresh _ Hp). }
  split; [exact Hne|].
  pose proof (Call_store evs token request w) as Hstore. cbv zeta in Hstore.
  destruct (Adapter.ReqBody request) as [err|body]; [rewrite Hstore; reflexivity|].
  destruct Hstore as [[-> | ->] _].
  - apply lookup_insert_ne. congruence.
  - rewrite store_sent_other
      by (destruct (len body >? 0); cbn [Params]; exact Hne).
    apply lookup_insert_ne. congruence.
Qed.

(** X17. The map Call built is the one the request used. When the acquired
    connection takes the BEGIN_REQUEST record, the map at Call's location
    holds after the call what Call built, with CONTENT_LENGTH set to the
    decimal length of the body when the body is not empty and untouched
    when it is empty, whatever became of the request afterwards. *)
Theorem Call_params_after (evs evs' : list pool_event) (token : byte * byte)
    (request : Adapter.HttpRequest) (w : World) (body : list byte)
    (conn : FCgiConnection) (cl : FCgiClient) :
  Adapter.ReqBody request = inr body ->
  findConnection evs (client w) = (Some conn, cl, evs') ->
  can_write 3 (mkSt conn (w_dials w)
                 (<[fresh (dom (w_maps w))
                    := Adapter.build_params range_order config request]> (w_maps w))) ->
  w_maps (snd (Adapter.Call range_order http_ReadResponse config evs token request w))
  !! fresh (dom (w_maps w))
  = Some (if len body >? 0
          then <["CONTENT_LENGTH" := Itoa (len body)]>
                 (Adapter.build_params range_order config request)
          else Adapter.build_params range_order config request).
Proof.
  intros Hbody Hfind Hw.
  pose proof (Call_store evs token request w) as Hstore. cbv zeta in Hstore.
  rewrite Hbody in Hstore. destruct Hstore as [_ Hsent].
  rewrite (Hsent conn cl evs' Hfind Hw).
  unfold store_sent, params_sent.
  destruct (len body >? 0) eqn:Hlen; cbn [Params Body];
    rewrite lookup_insert_eq, ?Hlen; apply lookup_insert_eq.
Qed.

End CallProperties.

Lemma Call_leaves_other_maps_witness :
  w_maps (snd (Adapter.Call listed_order HttpModel.ReadResponse example_config []
                 (x00, x01) example_request example_world)) !! 5%positive
  = Some ∅.
Proof.
  exact (eq_trans
           (proj2 (Call_leaves_other_maps listed_order HttpModel.ReadResponse
                     example_config [] (x00, x01) example_request example_world
                     5%positive (ex_intro _ ∅ (lookup_singleton_eq _ _))))
           (lookup_singleton_eq _ _)).
Defined.

Lemma Call_params_after_witness :
  exists m : gmap string string,
    w_maps (snd (Adapter.Call listed_order HttpModel.ReadResponse example_config []
                   (x00, x01) example_request example_world))
    !! fresh (dom (w_maps example_world)) = Some m
    /\ m !! "CONTENT_LENGTH" = Some "4"%string.
Proof.
  eexists. split.
  - apply (Call_params_after listed_order HttpModel.ReadResponse example_config [] []
             (x00, x01) example_request example_world [x62; x6f; x64; x79]
             (fpm_connection []) (mkFCgiClient [] 0)).
    + reflexivity.
    + reflexivity.
    + split; [reflexivity | exact I].
  - apply lookup_insert_eq.
Defined.
